(** * ASGI-to-WSGI adapter: a shallow embedding of [project/asgi_to_wsgi.py]

    The adapter turns an ASGI application (the callee) into a WSGI
    application.  The callee is an arbitrary, possibly non-terminating
    coroutine that talks to the adapter through [receive] and [send]; it is
    modelled as an interaction tree over these two events.  The adapter
    itself ([AsgiToWsgiInstance]) is modelled by explicit state passing over
    a record holding its attributes. *)

From ITree Require Import ITree.
From Stdlib.Strings Require Import String Ascii Byte.
From Stdlib Require Import List NArith ZArith Bool Lia.
Import ListNotations.
Local Open Scope list_scope.
Local Open Scope N_scope.

(** ** Python values used by the adapter *)

(** [bytes]: a sequence of octets. *)
Definition bytes := list byte.

(** [str]: a sequence of Unicode code points. *)
Definition pystr := list N.

(** An ASCII literal of the source, as a [str]. *)
Definition lit (s : string) : pystr := map Byte.to_N (list_byte_of_string s).

(** An ASCII literal of the source, as [bytes]. *)
Definition blit (s : string) : bytes := list_byte_of_string s.

Fixpoint str_eqb (a b : pystr) : bool :=
  match a, b with
  | [], [] => true
  | x :: a', y :: b' => (x =? y) && str_eqb a' b'
  | _, _ => false
  end.

(** [s.startswith(prefix)] *)
Fixpoint startswith (s prefix : pystr) {struct prefix} : bool :=
  match prefix with
  | [] => true
  | p :: prefix' =>
      match s with
      | [] => false
      | c :: s' => (c =? p) && startswith s' prefix'
      end
  end.

(** [s.replace(old, new)] for one-character [old] and [new]. *)
Definition replace_char (old new : N) (s : pystr) : pystr :=
  map (fun c => if c =? old then new else c) s.

Definition underscore : N := 95.
Definition hyphen : N := 45.

(** [str(n)] for a Python [int], as a decimal numeral (the interpreter
    refuses numerals beyond a length limit, see [status_in_range]). *)
Definition digit_of (d : N) : N := 48 + d.

Fixpoint str_of_N_aux (fuel : nat) (n : N) (acc : pystr) : pystr :=
  match fuel with
  | O => acc
  | S fuel' =>
      let acc' := digit_of (n mod 10) :: acc in
      if n / 10 =? 0 then acc' else str_of_N_aux fuel' (n / 10) acc'
  end.

Definition str_of_N (n : N) : pystr := str_of_N_aux (S (N.to_nat (N.log2 n))) n [].

Definition str_of_int (z : Z) : pystr :=
  match z with
  | Z0 => str_of_N 0
  | Zpos p => str_of_N (Npos p)
  | Zneg p => hyphen :: str_of_N (Npos p)
  end.

(** ** UTF-8 *)

Definition byte_of (n : N) : byte := byte_of_ascii (ascii_of_N n).

Definition is_surrogate (c : N) : bool := (0xD800 <=? c) && (c <=? 0xDFFF).

(** The encoding of one code point; lone surrogates and values above
    U+10FFFF have none ([UnicodeEncodeError]). *)
Definition utf8_encode_cp (c : N) : option bytes :=
  if c <? 0x80 then Some [byte_of c]
  else if c <? 0x800 then
    Some [byte_of (N.lor 0xC0 (N.shiftr c 6));
          byte_of (N.lor 0x80 (N.land c 0x3F))]
  else if c <? 0x10000 then
    if is_surrogate c then None
    else Some [byte_of (N.lor 0xE0 (N.shiftr c 12));
               byte_of (N.lor 0x80 (N.land (N.shiftr c 6) 0x3F));
               byte_of (N.lor 0x80 (N.land c 0x3F))]
  else if c <? 0x110000 then
    Some [byte_of (N.lor 0xF0 (N.shiftr c 18));
          byte_of (N.lor 0x80 (N.land (N.shiftr c 12) 0x3F));
          byte_of (N.lor 0x80 (N.land (N.shiftr c 6) 0x3F));
          byte_of (N.lor 0x80 (N.land c 0x3F))]
  else None.

(** [s.encode('utf-8')] *)
Fixpoint utf8_encode (s : pystr) : option bytes :=
  match s with
  | [] => Some []
  | c :: s' =>
      match utf8_encode_cp c, utf8_encode s' with
      | Some b, Some bs => Some (b ++ bs)
      | _, _ => None
      end
  end.

Definition is_cont (n : N) : bool := (0x80 <=? n) && (n <=? 0xBF).

Definition low6 (n : N) : N := N.land n 0x3F.

(** [b.decode('utf-8')]: strict decoding; overlong forms, surrogates,
    truncated sequences and stray continuation bytes are errors
    ([UnicodeDecodeError]). *)
Fixpoint utf8_decode (bs : bytes) : option pystr :=
  match bs with
  | [] => Some []
  | b0 :: r0 =>
      let n0 := Byte.to_N b0 in
      if n0 <? 0x80 then option_map (cons n0) (utf8_decode r0)
      else if (0xC2 <=? n0) && (n0 <=? 0xDF) then
        match r0 with
        | b1 :: r1 =>
            let n1 := Byte.to_N b1 in
            if is_cont n1
            then option_map (cons (N.lor (N.shiftl (N.land n0 0x1F) 6) (low6 n1)))
                            (utf8_decode r1)
            else None
        | _ => None
        end
      else if (0xE0 <=? n0) && (n0 <=? 0xEF) then
        match r0 with
        | b1 :: b2 :: r2 =>
            let n1 := Byte.to_N b1 in
            let n2 := Byte.to_N b2 in
            let c := N.lor (N.shiftl (N.land n0 0x0F) 12)
                           (N.lor (N.shiftl (low6 n1) 6) (low6 n2)) in
            if is_cont n1 && is_cont n2 && (0x800 <=? c) && negb (is_surrogate c)
            then option_map (cons c) (utf8_decode r2)
            else None
        | _ => None
        end
      else if (0xF0 <=? n0) && (n0 <=? 0xF4) then
        match r0 with
        | b1 :: b2 :: b3 :: r3 =>
            let n1 := Byte.to_N b1 in
            let n2 := Byte.to_N b2 in
            let n3 := Byte.to_N b3 in
            let c := N.lor (N.shiftl (N.land n0 0x07) 18)
                           (N.lor (N.shiftl (low6 n1) 12)
                                  (N.lor (N.shiftl (low6 n2) 6) (low6 n3))) in
            if is_cont n1 && is_cont n2 && is_cont n3
               && (0x10000 <=? c) && (c <? 0x110000)
            then option_map (cons c) (utf8_decode r3)
            else None
        | _ => None
        end
      else None
  end.

(** ** Exceptions and fallible computations *)

Inductive exn : Type :=
| ValueError (msg : pystr)
| KeyError (key : pystr)
| AttributeError (attr : pystr)
| TypeError (msg : pystr)
| UnicodeEncodeError
| UnicodeDecodeError
| AppException (code : N).   (* an exception of the callee's own *)

Inductive result (A : Type) : Type :=
| Ok (a : A)
| Raise (e : exn).
Arguments Ok {A} a.
Arguments Raise {A} e.

Definition rbind {A B} (r : result A) (k : A -> result B) : result B :=
  match r with
  | Ok a => k a
  | Raise e => Raise e
  end.

Declare Scope result_scope.
Delimit Scope result_scope with result.
Notation "'let*' x ':=' r 'in' k" := (rbind r (fun x => k))
  (at level 10, x pattern, r at level 100, k at level 200) : result_scope.

(** ** The WSGI environment *)

(** Values found in [environ]: CGI variables are [str]; ['wsgi.input'] is a
    readable byte stream ([io.BytesIO]) or [None]; the other values a
    gateway puts there are [bytes], tuples of [int] (['wsgi.version']) and
    [bool] (['wsgi.multithread']). *)
Inductive envval : Type :=
| EStr (s : pystr)
| ENone
| EStream (unread : bytes)   (* what [read()] will return *)
| EBytes (b : bytes)
| ETuple (items : list Z)
| EBool (b : bool).

(** [environ] is a [dict] ([Environ]): string keys, iterated in insertion order. *)
Definition Environ := list (pystr * envval).

Fixpoint dict_get (d : Environ) (key : pystr) : option envval :=
  match d with
  | [] => None
  | (k, v) :: d' => if str_eqb k key then Some v else dict_get d' key
  end.

(** [environ[key]] *)
Definition subscript (d : Environ) (key : string) : result envval :=
  match dict_get d (lit key) with
  | Some v => Ok v
  | None => Raise (KeyError (lit key))
  end.

(** [environ.get(key, default)] *)
Definition get_default (d : Environ) (key : string) (default : envval) : envval :=
  match dict_get d (lit key) with
  | Some v => v
  | None => default
  end.

(** [value.encode('utf-8')] *)
Definition encode (value : envval) : result bytes :=
  match value with
  | EStr s =>
      match utf8_encode s with
      | Some b => Ok b
      | None => Raise UnicodeEncodeError
      end
  | _ => Raise (AttributeError (lit "encode"))
  end.

(** [value.startswith(prefix)] for a [str] prefix: [bytes.startswith]
    refuses it, the other values have no such attribute. *)
Definition startswith_val (value : envval) (prefix : string) : result bool :=
  match value with
  | EStr s => Ok (startswith s (lit prefix))
  | EBytes _ =>
      Raise (TypeError
               (lit "startswith first arg must be bytes or a tuple of bytes, not str"))
  | _ => Raise (AttributeError (lit "startswith"))
  end.

(** [value[5:]]: strings, [bytes] and tuples can be sliced. *)
Definition slice_from_5 (value : envval) : result envval :=
  match value with
  | EStr s => Ok (EStr (skipn 5 s))
  | EBytes b => Ok (EBytes (skipn 5 b))
  | ETuple items => Ok (ETuple (skipn 5 items))
  | ENone => Raise (TypeError (lit "'NoneType' object is not subscriptable"))
  | EStream _ => Raise (TypeError (lit "'_io.BytesIO' object is not subscriptable"))
  | EBool _ => Raise (TypeError (lit "'bool' object is not subscriptable"))
  end.

(** The request body handed to the callee: [bytes] from [read()], or the
    text literal [''] of the source. *)
Inductive pybody : Type :=
| Bytes (b : bytes)
| Text (s : pystr).

(** [wsgi_input.read()]: everything unread, in one call. *)
Definition read (wsgi_input : envval) : result bytes :=
  match wsgi_input with
  | EStream unread => Ok unread
  | _ => Raise (AttributeError (lit "read"))
  end.

(** The effect of [read()] on the stream held by [environ]: nothing is left
    unread. *)
Fixpoint drain_input (d : Environ) : Environ :=
  match d with
  | [] => []
  | (k, v) :: d' =>
      if str_eqb k (lit "wsgi.input")
      then (k, match v with EStream _ => EStream [] | _ => v end) :: d'
      else (k, v) :: drain_input d'
  end.

Record Scope : Type := mkScope {
  scope_type : pystr;
  method : envval;
  root_path : envval;
  path : envval;
  query_string : envval;
  http_version : envval;
  scheme : envval;
  server : envval * envval;
  client : envval;
  headers : list (bytes * bytes)
}.

Section ScopeBuilder.

(** [str.lower] is Python's Unicode-aware lowercasing; the builder is
    parametric in it. *)
Variable str_lower : pystr -> pystr.

Local Open Scope result_scope.
Local Open Scope string_scope.

(** The [if]/[elif]/[else: continue] chain of the header loop: the
    corrected name, or [None] for [continue]. *)
Definition corrected_name (name : pystr) : option pystr :=
  if startswith name (lit "HTTP_")
  then Some (replace_char underscore hyphen (str_lower (skipn 5 name)))
  else if str_eqb name (lit "CONTENT_LENGTH") then Some (lit "content-length")
  else if str_eqb name (lit "CONTENT_TYPE") then Some (lit "content-type")
  else None.

(** [for name, value in environ.items(): ... headers.append(...)] *)
Fixpoint header_loop (items : Environ) (headers : list (bytes * bytes))
  : result (list (bytes * bytes)) :=
  match items with
  | [] => Ok headers
  | (name, value) :: rest =>
      match corrected_name name with
      | None => header_loop rest headers
      | Some cname =>
          let* n := encode (EStr cname) in
          let* v := encode value in
          header_loop rest (headers ++ [(n, v)])
      end
  end.

(** [AsgiToWsgiInstance.build_scope_and_body]; the third component is
    [environ] after the call (its input stream has been read). *)
Definition build_scope_and_body (environ : Environ)
  : result (Scope * pybody * Environ) :=
  let* headers := header_loop environ [] in
  let* request_method := subscript environ "REQUEST_METHOD" in
  let* script_name := subscript environ "SCRIPT_NAME" in
  let* path_info := subscript environ "PATH_INFO" in
  let* query := subscript environ "QUERY_STRING" in
  let* protocol := subscript environ "SERVER_PROTOCOL" in
  let* version := slice_from_5 protocol in
  let url_scheme := get_default environ "wsgi.url_scheme" (EStr (lit "http")) in
  let* server_name := subscript environ "SERVER_NAME" in
  let* server_port := subscript environ "SERVER_PORT" in
  let* remote_addr := subscript environ "REMOTE_ADDR" in
  let scope :=
    {| scope_type := lit "http";
       method := request_method;
       root_path := script_name;
       path := path_info;
       query_string := query;
       http_version := version;
       scheme := url_scheme;
       server := (server_name, server_port);
       client := remote_addr;
       headers := headers |} in
  let* wsgi_input := subscript environ "wsgi.input" in
  match wsgi_input with
  | ENone => Ok (scope, Text (lit ""), environ)
  | _ =>
      let* data := read wsgi_input in
      Ok (scope, Bytes data, drain_input environ)
  end.

End ScopeBuilder.

(** ** Messages *)

(** A message sent by the callee: a [dict] of which the adapter reads the
    keys [type], [status], [headers], [body] and [more_body]; [None] is an
    absent key. *)
Record Message : Type := mkMessage {
  msg_type : option pystr;
  msg_status : option Z;
  msg_headers : option (list (bytes * bytes));
  msg_body : option bytes;
  msg_more_body : option bool
}.

(** The messages the adapter puts on its queue:
    [{"type": "http.request", "body": body, "more_body": more_body}] and
    [{"type": "http.disconnect"}]. *)
Inductive QueueMessage : Type :=
| HttpRequest (body : pybody) (more_body : bool)
| HttpDisconnect.

(** [message.get(key, default)] *)
Definition get_or {A} (field : option A) (default : A) : A :=
  match field with
  | Some a => a
  | None => default
  end.

(** ** The per-request instance *)

Inductive HttpState : Type := REQUEST | RESPONSE | COMPLETE.

Definition HttpState_eqb (a b : HttpState) : bool :=
  match a, b with
  | REQUEST, REQUEST | RESPONSE, RESPONSE | COMPLETE, COMPLETE => true
  | _, _ => false
  end.

(** [str(state)], as the f-string of [send] formats it. *)
Definition HttpState_str (s : HttpState) : pystr :=
  match s with
  | REQUEST => lit "HttpState.REQUEST"
  | RESPONSE => lit "HttpState.RESPONSE"
  | COMPLETE => lit "HttpState.COMPLETE"
  end.

(** One call [self.response(status, headers, exc_info)] of the WSGI
    [start_response] callable. *)
Record ResponseCall : Type := mkResponseCall {
  call_status : pystr;
  call_headers : list (pystr * pystr);
  call_exc_info : option exn
}.

(** The attributes of an [AsgiToWsgiInstance].  [response_calls] records the
    calls made to [self.response], oldest first.  [put_history] and
    [got_history] are history variables: every message ever put on
    [app_queue] and every message ever taken from it, oldest first. *)
Record Instance : Type := mkInstance {
  body : bytes;
  state : HttpState;
  app_queue : list QueueMessage;
  response_calls : list ResponseCall;
  put_history : list QueueMessage;
  got_history : list QueueMessage
}.

Definition set_state (self : Instance) (s : HttpState) : Instance :=
  {| body := body self; state := s; app_queue := app_queue self;
     response_calls := response_calls self;
     put_history := put_history self; got_history := got_history self |}.

(** [self.body.extend(data)] *)
Definition body_extend (self : Instance) (data : bytes) : Instance :=
  {| body := body self ++ data; state := state self; app_queue := app_queue self;
     response_calls := response_calls self;
     put_history := put_history self; got_history := got_history self |}.

(** [self.response(status, headers, None)], for a callable that returns (as
    [start_response] does when it is given no exception info): the call is
    recorded. *)
Definition call_response (self : Instance) (status : pystr)
    (hdrs : list (pystr * pystr)) : Instance :=
  {| body := body self; state := state self; app_queue := app_queue self;
     response_calls := response_calls self ++ [mkResponseCall status hdrs None];
     put_history := put_history self; got_history := got_history self |}.

(** [self.app_queue.put(m)] / [put_nowait(m)] on an unbounded FIFO queue. *)
Definition queue_put (self : Instance) (m : QueueMessage) : Instance :=
  {| body := body self; state := state self; app_queue := app_queue self ++ [m];
     response_calls := response_calls self;
     put_history := put_history self ++ [m]; got_history := got_history self |}.

(** [self.app_queue.get()]: the oldest message, or [None] when the queue is
    empty (the awaiting task is suspended). *)
Definition queue_get (self : Instance) : option (Instance * QueueMessage) :=
  match app_queue self with
  | [] => None
  | m :: rest =>
      Some ({| body := body self; state := state self; app_queue := rest;
               response_calls := response_calls self;
               put_history := put_history self;
               got_history := got_history self ++ [m] |}, m)
  end.

(** [AsgiToWsgiInstance.receive] *)
Definition receive (self : Instance) : option (Instance * QueueMessage) :=
  queue_get self.

(** [for (k, v) in headers: corrected_headers.append((k.decode('utf-8'),
    v.decode('utf-8')))] *)
Fixpoint decode_loop (hdrs : list (bytes * bytes))
    (corrected_headers : list (pystr * pystr)) : result (list (pystr * pystr)) :=
  match hdrs with
  | [] => Ok corrected_headers
  | (k, v) :: rest =>
      match utf8_decode k, utf8_decode v with
      | Some k', Some v' => decode_loop rest (corrected_headers ++ [(k', v')])
      | _, _ => Raise UnicodeDecodeError
      end
  end.

(** [f"{self.state}: Unexpected '{message_type}' event received."] *)
Definition unexpected_event (s : HttpState) (message_type : pystr) : pystr :=
  HttpState_str s ++ lit ": Unexpected '" ++ message_type ++ lit "' event received.".

(** [AsgiToWsgiInstance.send]: the instance afterwards, and [Ok tt] or the
    exception raised. *)
Definition send (self : Instance) (message : Message) : Instance * result unit :=
  match msg_type message with
  | None => (self, Raise (KeyError (lit "type")))
  | Some message_type =>
      if HttpState_eqb (state self) REQUEST
         && str_eqb message_type (lit "http.response.start")
      then
        match msg_status message with
        | None => (self, Raise (KeyError (lit "status")))
        | Some code =>
            let status := str_of_int code in
            let hdrs := get_or (msg_headers message) [] in
            match decode_loop hdrs [] with
            | Raise e => (self, Raise e)
            | Ok corrected_headers =>
                let self := call_response self status corrected_headers in
                (set_state self RESPONSE, Ok tt)
            end
        end
      else if HttpState_eqb (state self) RESPONSE
              && str_eqb message_type (lit "http.response.body")
      then
        let self := body_extend self (get_or (msg_body message) []) in
        if negb (get_or (msg_more_body message) false)
        then
          let self := set_state self COMPLETE in
          (queue_put self HttpDisconnect, Ok tt)
        else (self, Ok tt)
      else (self, Raise (TypeError (unexpected_event (state self) message_type)))
  end.

(** ** The callee and the runner *)

(** What the callee can do with the two awaitables it is given.  [Send]
    answers with the exception [send] raised, if any: the callee may catch
    it or let it propagate. *)
Variant asgiE : Type -> Type :=
| Receive : asgiE QueueMessage
| Send (message : Message) : asgiE (result unit).

(** A coroutine of the callee: it returns ([Ok tt]) or raises. *)
Definition Coroutine := itree asgiE (result unit).

(** An ASGI application, invoked as [app(scope, receive, send)]. *)
Definition AsgiApp := Scope -> Coroutine.

(** [await send(message)] with the exception left to propagate. *)
Definition await_send (message : Message) (k : Coroutine) : Coroutine :=
  Vis (Send message) (fun r => match r with Ok _ => k | Raise e => Ret (Raise e) end).

(** [message = await receive()] *)
Definition await_receive (k : QueueMessage -> Coroutine) : Coroutine :=
  Vis Receive k.

(** One step of the event loop, for a callee that runs as the single task
    [asyncio.run] starts. *)
Inductive Step : Type :=
| Next (self : Instance) (t : Coroutine)
| Returned (r : result unit)
| Suspended.

Definition step (self : Instance) (t : Coroutine) : Step :=
  match observe t with
  | RetF r => Returned r
  | TauF t' => Next self t'
  | VisF e k =>
      match e in asgiE X return (X -> Coroutine) -> Step with
      | Receive => fun k =>
          match receive self with
          | Some (self', m) => Next self' (k m)
          | None => Suspended
          end
      | Send message => fun k =>
          let (self', r) := send self message in Next self' (k r)
      end k
  end.

(** How [asyncio.run] ends: the coroutine returned or raised, or the only
    task is suspended on an empty queue and the loop never returns. *)
Inductive Outcome (A : Type) : Type :=
| Finished (r : result A)
| Hangs.
Arguments Finished {A} r.
Arguments Hangs {A}.

(** The event loop, for at most [fuel] steps ([None]: still running). *)
Fixpoint run_loop (fuel : nat) (self : Instance) (t : Coroutine)
  : option (Instance * Outcome unit) :=
  match fuel with
  | O => None
  | S fuel' =>
      match step self t with
      | Next self' t' => run_loop fuel' self' t'
      | Returned r => Some (self, Finished r)
      | Suspended => Some (self, Hangs)
      end
  end.

(** [AsgiToWsgiInstance.__init__]: [self.body = bytearray()].  [state] and
    [app_queue] are assigned by [run_asgi_app] before anything reads them. *)
Definition new_instance : Instance :=
  {| body := []; state := REQUEST; app_queue := [];
     response_calls := []; put_history := []; got_history := [] |}.

(** The first three statements of [run_asgi_app]. *)
Definition start_instance (self : Instance) (request_body : pybody) : Instance :=
  let self := set_state self REQUEST in
  let self :=
    {| body := body self; state := state self; app_queue := [];
       response_calls := response_calls self;
       put_history := put_history self; got_history := got_history self |} in
  queue_put self (HttpRequest request_body false).

(** [asyncio.run(self.run_asgi_app(scope, body))] *)
Definition run_asgi_app (fuel : nat) (app : AsgiApp) (self : Instance)
    (scope : Scope) (request_body : pybody) : option (Instance * Outcome unit) :=
  run_loop fuel (start_instance self request_body) (app scope).

(** What a call of the adapter leaves behind: how it ended, [environ]
    afterwards, and the instance if [run_asgi_app] was entered. *)
Record CallResult : Type := mkCallResult {
  outcome : Outcome (list bytes);
  environ_after : Environ;
  ran : option Instance
}.

Section Adapter.

Variable str_lower : pystr -> pystr.

(** [AsgiToWsgiInstance.__call__] *)
Definition AsgiToWsgiInstance_call (fuel : nat) (app : AsgiApp) (self : Instance)
    (environ : Environ) : option CallResult :=
  match rbind (subscript environ "SERVER_PROTOCOL")
              (fun protocol => startswith_val protocol "HTTP") with
  | Raise e => Some (mkCallResult (Finished (Raise e)) environ None)
  | Ok false =>
      Some (mkCallResult
              (Finished (Raise (ValueError (lit "ASGI wrapper received a non-HTTP environ"))))
              environ None)
  | Ok true =>
      match build_scope_and_body str_lower environ with
      | Raise e => Some (mkCallResult (Finished (Raise e)) environ None)
      | Ok (scope, request_body, environ') =>
          match run_asgi_app fuel app self scope request_body with
          | None => None
          | Some (self', Hangs) => Some (mkCallResult Hangs environ' (Some self'))
          | Some (self', Finished (Raise e)) =>
              Some (mkCallResult (Finished (Raise e)) environ' (Some self'))
          | Some (self', Finished (Ok _)) =>
              Some (mkCallResult (Finished (Ok [body self'])) environ' (Some self'))
          end
      end
  end.

(** [AsgiToWsgi.__call__]: a fresh instance for every call. *)
Definition AsgiToWsgi_call (fuel : nat) (app : AsgiApp) (environ : Environ)
  : option CallResult :=
  AsgiToWsgiInstance_call fuel app new_instance environ.

End Adapter.

(** ** Runs of the adapter *)

(** [n] steps of the event loop, if the task takes that many. *)
Fixpoint steps (n : nat) (self : Instance) (t : Coroutine)
  : option (Instance * Coroutine) :=
  match n with
  | O => Some (self, t)
  | S n' =>
      match step self t with
      | Next self' t' => steps n' self' t'
      | _ => None
      end
  end.

(** The configurations (instance, rest of the callee) a request can go
    through: [run_asgi_app] on a fresh instance, then any number of steps. *)
Inductive reachable (app : AsgiApp) (scope : Scope) (request_body : pybody)
  : Instance -> Coroutine -> Prop :=
| reach_start :
    reachable app scope request_body
              (start_instance new_instance request_body) (app scope)
| reach_step self t self' t' :
    reachable app scope request_body self t ->
    step self t = Next self' t' ->
    reachable app scope request_body self' t'.

(** Consecutive [send]s, up to the first exception. *)
Fixpoint send_all (self : Instance) (messages : list Message)
  : Instance * result unit :=
  match messages with
  | [] => (self, Ok tt)
  | m :: rest =>
      match send self m with
      | (self', Ok _) => send_all self' rest
      | (self', Raise e) => (self', Raise e)
      end
  end.

(** ** The specification's vocabulary *)

Section Vocabulary.

Local Open Scope string_scope.

(** The two message kinds the callee may send. *)
Definition response_start : pystr := lit "http.response.start".
Definition response_body : pystr := lit "http.response.body".

(** The state/kind table of the response state machine: the next state of
    a legal pair, [None] for every other pair. *)
Definition table_next (s : HttpState) (message : Message) : option HttpState :=
  match msg_type message with
  | None => None
  | Some kind =>
      match s with
      | REQUEST => if str_eqb kind response_start then Some RESPONSE else None
      | RESPONSE =>
          if str_eqb kind response_body
          then Some (if get_or (msg_more_body message) false then RESPONSE else COMPLETE)
          else None
      | COMPLETE => None
      end
  end.

(** The legal (state, kind) pairs of the table. *)
Definition legal_pair (s : HttpState) (kind : pystr) : bool :=
  match s with
  | REQUEST => str_eqb kind response_start
  | RESPONSE => str_eqb kind response_body
  | COMPLETE => false
  end.

(** The single forward path REQUEST -> RESPONSE -> COMPLETE, with staying
    at RESPONSE. *)
Inductive forward : HttpState -> HttpState -> Prop :=
| forward_start : forward REQUEST RESPONSE
| forward_more : forward RESPONSE RESPONSE
| forward_complete : forward RESPONSE COMPLETE.

(** The keys of [environ] that yield a header. *)
Definition header_key (entry : pystr * envval) : bool :=
  startswith (fst entry) (lit "HTTP_")
  || str_eqb (fst entry) (lit "CONTENT_LENGTH")
  || str_eqb (fst entry) (lit "CONTENT_TYPE").

(** [t] is [s] with every underscore replaced by a hyphen: the two have
    the same length, [t] has a hyphen wherever [s] has an underscore, and the
    character of [s] everywhere else. *)
Definition hyphenated (s t : pystr) : Prop :=
  Forall2 (fun c d => (c = 95 /\ d = 45) \/ (c <> 95 /\ d = c)) s t.

Variable str_lower : pystr -> pystr.

(** The header an entry of [environ] yields, as the specification words it:
    for a key [HTTP_] + suffix the name is the suffix, lowercased, with
    hyphens for underscores. *)
Inductive header_of : pystr * envval -> bytes * bytes -> Prop :=
| header_http suffix name text n v :
    hyphenated (str_lower suffix) name ->
    utf8_encode name = Some n ->
    utf8_encode text = Some v ->
    header_of ((lit "HTTP_" ++ suffix)%list, EStr text) (n, v)
| header_content_length text v :
    utf8_encode text = Some v ->
    header_of (lit "CONTENT_LENGTH", EStr text) (blit "content-length", v)
| header_content_type text v :
    utf8_encode text = Some v ->
    header_of (lit "CONTENT_TYPE", EStr text) (blit "content-type", v).

(** A header entry the loop can encode: a text value, and a name and a value
    without lone surrogates. *)
Definition header_entry_ok (entry : pystr * envval) : bool :=
  match corrected_name str_lower (fst entry) with
  | None => true
  | Some cname =>
      match utf8_encode cname, snd entry with
      | Some _, EStr text =>
          match utf8_encode text with Some _ => true | None => false end
      | _, _ => false
      end
  end.

Definition has_key (environ : Environ) (key : string) : bool :=
  match dict_get environ (lit key) with Some _ => true | None => false end.

(** The CGI variables the scope is built from. *)
Definition has_required_keys (environ : Environ) : bool :=
  has_key environ "REQUEST_METHOD" && has_key environ "SCRIPT_NAME"
  && has_key environ "PATH_INFO" && has_key environ "QUERY_STRING"
  && has_key environ "SERVER_NAME" && has_key environ "SERVER_PORT"
  && has_key environ "REMOTE_ADDR".

(** [environ["SERVER_PROTOCOL"]] is a string that starts with ["HTTP"]. *)
Definition is_http (environ : Environ) : bool :=
  match dict_get environ (lit "SERVER_PROTOCOL") with
  | Some (EStr protocol) => startswith protocol (lit "HTTP")
  | _ => false
  end.

(** ['wsgi.input'] is a key of [environ], bound to a stream or to [None]. *)
Definition has_input (environ : Environ) : bool :=
  match dict_get environ (lit "wsgi.input") with
  | Some (EStream _) | Some ENone => true
  | _ => false
  end.

(** An environment on which the scope builder succeeds. *)
Definition environ_ok (environ : Environ) : bool :=
  forallb header_entry_ok environ && has_required_keys environ
  && is_http environ && has_input environ.

End Vocabulary.

(** [response.body] messages that leave the response open / that close it. *)
Definition is_more_chunk (message : Message) : bool :=
  match msg_type message, msg_more_body message with
  | Some kind, Some true => str_eqb kind response_body
  | _, _ => false
  end.

Definition is_last_chunk (message : Message) : bool :=
  match msg_type message with
  | Some kind => str_eqb kind response_body && negb (get_or (msg_more_body message) false)
  | None => false
  end.

Definition payload (message : Message) : bytes := get_or (msg_body message) [].

(** What holds of the queue and its history at every point of a request. *)
Definition channel_inv (request_body : pybody) (self : Instance) : Prop :=
  put_history self
  = HttpRequest request_body false
    :: (if HttpState_eqb (state self) COMPLETE then [HttpDisconnect] else [])
  /\ put_history self = got_history self ++ app_queue self.


(** A status whose numeral is within the interpreter's limit for
    [str(int)], 4300 digits. *)
Definition status_in_range (code : Z) : bool :=
  Nat.leb (length (str_of_N (Z.abs_N code))) 4300.

(** The claim that, once the body is complete, every [receive()] of the
    callee is answered with the disconnect message. *)
Definition receive_after_completion_claim : Prop :=
  forall app scope request_body self t (k : QueueMessage -> Coroutine),
    reachable app scope request_body self t ->
    state self = COMPLETE ->
    observe t = VisF Receive k ->
    exists self', receive self = Some (self', HttpDisconnect).

(** ** Sample data *)

Section Samples.

Local Open Scope string_scope.

(** [str.lower] on ASCII text. *)
Definition ascii_lower (s : pystr) : pystr :=
  map (fun c => if ((65 <=? c) && (c <=? 90))%N then (c + 32)%N else c) s.

Definition minimal_environ : Environ :=
  [ (lit "REQUEST_METHOD", EStr (lit "GET"));
    (lit "SCRIPT_NAME", EStr (lit ""));
    (lit "PATH_INFO", EStr (lit "/"));
    (lit "QUERY_STRING", EStr (lit ""));
    (lit "SERVER_PROTOCOL", EStr (lit "HTTP/1.1"));
    (lit "SERVER_NAME", EStr (lit "localhost"));
    (lit "SERVER_PORT", EStr (lit "80"));
    (lit "REMOTE_ADDR", EStr (lit "127.0.0.1"));
    (lit "wsgi.input", EStream (blit "ping")) ].

(** The same, with ['wsgi.input'] bound to [None]. *)
Definition environ_without_stream : Environ :=
  (firstn 8 minimal_environ ++ [(lit "wsgi.input", ENone)])%list.


(** A request with headers, and WSGI entries that are not strings. *)
Definition environ_with_headers : Environ :=
  ([ (lit "wsgi.version", ETuple [1%Z; 0%Z]);
     (lit "HTTP_X_FOO", EStr (lit "Bar_Baz"));
     (lit "CONTENT_TYPE", EStr (lit "text/plain")) ]
   ++ firstn 4 minimal_environ
   ++ [ (lit "CONTENT_LENGTH", EStr (lit "4"));
        (lit "HTTPS", EStr (lit "on")) ]
   ++ skipn 4 minimal_environ)%list.

(** An HTTP environment without ['wsgi.input'] whose header entry is bound
    to [None]. *)
Definition environ_none_header : Environ :=
  [ (lit "SERVER_PROTOCOL", EStr (lit "HTTP/1.1"));
    (lit "HTTP_X_FOO", ENone) ].

(** The same, with a string that has a lone surrogate. *)
Definition environ_surrogate_header : Environ :=
  [ (lit "SERVER_PROTOCOL", EStr (lit "HTTP/1.1"));
    (lit "HTTP_X_FOO", EStr [0xDC80]) ].

(** A gateway that does not speak HTTP. *)
Definition gopher_environ : Environ :=
  [ (lit "SERVER_PROTOCOL", EStr (lit "GOPHER/1.0"));
    (lit "wsgi.input", EStream (blit "ping")) ].

Definition start_200 : Message :=
  mkMessage (Some response_start) (Some 200%Z) (Some [(blit "x", blit "y")]) None None.

Definition body_hello : Message :=
  mkMessage (Some response_body) None None (Some (blit "hello")) (Some false).

Definition chunk (data : string) : Message :=
  mkMessage (Some response_body) None None (Some (blit data)) (Some true).

(** Only the required keys: [{"type": ..., "status": 204}] and
    [{"type": "http.response.body"}]. *)
Definition bare_start : Message :=
  mkMessage (Some response_start) (Some 204%Z) None None None.

Definition bare_body : Message :=
  mkMessage (Some response_body) None None None None.

(** [await send(start); await send(body)] *)
Definition hello_app : AsgiApp :=
  fun _ => await_send start_200 (await_send body_hello (Ret (Ok tt))).

(** The callee [await send(start); await send(chunk) ...; await send(last)]. *)
Definition chunked_app (chunks : list Message) (last : Message) : AsgiApp :=
  fun _ => fold_right await_send (Ret (Ok tt)) (start_200 :: chunks ++ [last])%list.

(** [await receive()], once and twice. *)
Definition receive_once : Coroutine := await_receive (fun _ => Ret (Ok tt)).

Definition receive_twice : Coroutine := await_receive (fun _ => receive_once).

(** A callee that reads the request, answers, waits for the disconnect and
    then calls [receive()] once more. *)
Definition lingering_app : AsgiApp :=
  fun _ =>
    await_receive (fun _ =>
    await_send start_200 (
    await_send body_hello receive_twice)).

(** A callee that answers without reading the request, then calls
    [receive()]. *)
Definition eager_app : AsgiApp :=
  fun _ =>
    await_send start_200 (
    await_send body_hello (
    receive_once)).

Definition sample_scope : Scope :=
  mkScope (lit "http") (EStr (lit "GET")) (EStr (lit "")) (EStr (lit "/"))
          (EStr (lit "")) (EStr (lit "1.1")) (EStr (lit "http"))
          (EStr (lit "localhost"), EStr (lit "80")) (EStr (lit "127.0.0.1")) [].

(** An instance whose response has been started. *)
Definition started_instance : Instance :=
  fst (send (start_instance new_instance (Bytes [])) start_200).

(** An instance whose response is complete. *)
Definition completed_instance : Instance :=
  fst (send started_instance body_hello).

(** The instance of [lingering_app] once it has answered: the request
    message has been received, the disconnect message is queued. *)
Definition answered_instance : Instance :=
  {| body := blit "hello";
     state := COMPLETE;
     app_queue := [HttpDisconnect];
     response_calls := [mkResponseCall (lit "200") [(lit "x", lit "y")] None];
     put_history := [HttpRequest (Bytes []) false; HttpDisconnect];
     got_history := [HttpRequest (Bytes []) false] |}.

(** The same instance once the disconnect message has been received too. *)
Definition drained_instance : Instance :=
  {| body := blit "hello";
     state := COMPLETE;
     app_queue := [];
     response_calls := [mkResponseCall (lit "200") [(lit "x", lit "y")] None];
     put_history := [HttpRequest (Bytes []) false; HttpDisconnect];
     got_history := [HttpRequest (Bytes []) false; HttpDisconnect] |}.

End Samples.

(** ** Further vocabulary *)

Section MoreVocabulary.

Local Open Scope string_scope.

(** [environ["SERVER_PROTOCOL"]] can be sliced: it is a string, [bytes] or a
    tuple. *)
Definition protocol_sliceable (environ : Environ) : bool :=
  match dict_get environ (lit "SERVER_PROTOCOL") with
  | Some (EStr _) | Some (EBytes _) | Some (ETuple _) => true
  | _ => false
  end.

(** What the precondition of [__call__] raises, by what [environ] binds
    [SERVER_PROTOCOL] to; [None] when the precondition passes. *)
Definition precondition_error (environ : Environ) : option exn :=
  match dict_get environ (lit "SERVER_PROTOCOL") with
  | None => Some (KeyError (lit "SERVER_PROTOCOL"))
  | Some (EStr protocol) =>
      if startswith protocol (lit "HTTP") then None
      else Some (ValueError (lit "ASGI wrapper received a non-HTTP environ"))
  | Some (EBytes _) =>
      Some (TypeError
              (lit "startswith first arg must be bytes or a tuple of bytes, not str"))
  | Some ENone | Some (EStream _) | Some (ETuple _) | Some (EBool _) =>
      Some (AttributeError (lit "startswith"))
  end.

(** The keys [build_scope_and_body] subscripts, in the order it does. *)
Definition scope_keys : list string :=
  [ "REQUEST_METHOD"; "SCRIPT_NAME"; "PATH_INFO"; "QUERY_STRING";
    "SERVER_PROTOCOL"; "SERVER_NAME"; "SERVER_PORT"; "REMOTE_ADDR";
    "wsgi.input" ].

(** The first of them that [environ] lacks. *)
Definition first_missing (environ : Environ) : option string :=
  find (fun key => negb (has_key environ key)) scope_keys.

(** A header of the callee and the text pair it decodes to. *)
Definition header_text (raw : bytes * bytes) (text : pystr * pystr) : Prop :=
  utf8_decode (fst raw) = Some (fst text) /\ utf8_decode (snd raw) = Some (snd text).

(** The response callback has been called exactly when the state has left
    REQUEST, once and without exception info; before that the buffer is
    empty. *)
Definition response_inv (self : Instance) : Prop :=
  match state self with
  | REQUEST => response_calls self = [] /\ body self = []
  | _ => exists status hdrs, response_calls self = [mkResponseCall status hdrs None]
  end.

Variable str_lower : pystr -> pystr.

(** The text a header entry stands for: the corrected name and the string
    of the entry. *)
Definition entry_text (entry : pystr * envval) (text : pystr * pystr) : Prop :=
  corrected_name str_lower (fst entry) = Some (fst text)
  /\ snd entry = EStr (snd text).

(** The environments on which [build_scope_and_body] returns. *)
Definition builder_ok (environ : Environ) : bool :=
  forallb (header_entry_ok str_lower) environ && has_required_keys environ
  && protocol_sliceable environ && has_input environ.

End MoreVocabulary.

(** [check] on every number from [base] to [base + 2 ^ d - 1]. *)
Fixpoint check_block (check : N -> bool) (d : nat) (base : N) : bool :=
  match d with
  | O => check base
  | S d' =>
      check_block check d' base && check_block check d' (base + 2 ^ N.of_nat d')
  end.

(** The value of a decimal numeral. *)
Definition N_of_digits (s : pystr) : N :=
  fold_left (fun a d => 10 * a + (d - 48)) s 0.

(** [int(s)] on a decimal numeral with an optional minus sign. *)
Definition int_of_str (s : pystr) : Z :=
  match s with
  | 45 :: digits => - Z.of_N (N_of_digits digits)
  | _ => Z.of_N (N_of_digits s)
  end.

(** A callee that returns at once. *)
Definition silent_app : AsgiApp := fun _ => Ret (Ok tt).

(** A callee that calls [receive()] twice before it answers. *)
Definition impatient_app : AsgiApp :=
  fun _ => await_receive (fun _ => await_receive (fun _ => hello_app sample_scope)).

(** A minimal environment whose [SERVER_PROTOCOL] is the tuple [(1, 0)]. *)
Definition environ_tuple_protocol : Environ :=
  (firstn 4 minimal_environ ++ [(lit "SERVER_PROTOCOL", ETuple [1%Z; 0%Z])]
   ++ skipn 5 minimal_environ)%list.

(** An environment whose [SERVER_PROTOCOL] is [bytes]. *)
Definition environ_bytes_protocol : Environ :=
  [ (lit "SERVER_PROTOCOL", EBytes (blit "HTTP/1.1"));
    (lit "wsgi.input", EStream (blit "ping")) ].

(** An environment without [SERVER_PROTOCOL]. *)
Definition environ_without_protocol : Environ :=
  [ (lit "REQUEST_METHOD", EStr (lit "GET"));
    (lit "wsgi.input", EStream (blit "ping")) ].


(** A minimal environment without [PATH_INFO] and [SERVER_PORT]. *)
Definition environ_without_path : Environ :=
  (firstn 2 minimal_environ ++ firstn 3 (skipn 3 minimal_environ)
   ++ skipn 7 minimal_environ)%list.

(** * Properties *)

(** ** Strings *)

Lemma str_eqb_refl (a : pystr) : str_eqb a a = true.
Proof.
  induction a as [|x a IH]; simpl; [reflexivity|].
  now rewrite N.eqb_refl, IH.
Qed.

Lemma str_eqb_eq (a b : pystr) : str_eqb a b = true <-> a = b.
Proof.
  split.
  - revert b. induction a as [|x a IH]; intros [|y b] H; simpl in H;
      try discriminate; [reflexivity|].
    apply andb_true_iff in H as [Hx Hab].
    apply N.eqb_eq in Hx. apply IH in Hab. now subst.
  - intros ->. apply str_eqb_refl.
Qed.

Lemma str_eqb_neq (a b : pystr) : str_eqb a b = false <-> a <> b.
Proof.
  split.
  - intros H E. apply str_eqb_eq in E. congruence.
  - intros H. destruct (str_eqb a b) eqn:E; [|reflexivity].
    apply str_eqb_eq in E. contradiction.
Qed.

Lemma startswith_app (prefix rest : pystr) : startswith (prefix ++ rest) prefix = true.
Proof.
  induction prefix as [|p prefix IH]; simpl; [reflexivity|].
  now rewrite N.eqb_refl, IH.
Qed.

Lemma startswith_split (s prefix : pystr) :
  startswith s prefix = true -> s = prefix ++ skipn (length prefix) s.
Proof.
  revert s. induction prefix as [|p prefix IH]; intros s H; simpl in *.
  - reflexivity.
  - destruct s as [|c s]; [discriminate|].
    apply andb_true_iff in H as [Hc Hs]. apply N.eqb_eq in Hc. subst c.
    simpl. f_equal. now apply IH.
Qed.

Example str_of_int_200 : str_of_int 200 = lit "200".
Proof. reflexivity. Qed.

Example str_of_int_negative : str_of_int (-17) = lit "-17".
Proof. reflexivity. Qed.

Example utf8_encode_two_bytes : utf8_encode [0xE9] = Some [xc3; xa9].
Proof. reflexivity. Qed.

Example utf8_encode_lone_surrogate : utf8_encode [0xD800] = None.
Proof. reflexivity. Qed.

Example utf8_decode_then_encode :
  option_map utf8_encode (utf8_decode [xe4; xb8; xad; x41; xf0; x9f; x98; x80])
  = Some (Some [xe4; xb8; xad; x41; xf0; x9f; x98; x80]).
Proof. reflexivity. Qed.

Example utf8_decode_overlong : utf8_decode [xc0; x80] = None.
Proof. reflexivity. Qed.

(** ** The response state machine *)

Lemma HttpState_eqb_eq (a b : HttpState) : HttpState_eqb a b = true <-> a = b.
Proof. destruct a, b; simpl; split; intros H; congruence. Qed.

(** The error text names the state. *)
Lemma unexpected_event_state (s s' : HttpState) (k k' : pystr) :
  unexpected_event s k = unexpected_event s' k' -> s = s'.
Proof.
  unfold unexpected_event.
  destruct s, s'; simpl; intros H; try reflexivity; discriminate H.
Qed.

(** The error text names the state and the kind. *)
Lemma unexpected_event_inj (s s' : HttpState) (k k' : pystr) :
  unexpected_event s k = unexpected_event s' k' -> s = s' /\ k = k'.
Proof.
  intros H. pose proof (unexpected_event_state _ _ _ _ H) as Hs. subst s'.
  split; [reflexivity|].
  unfold unexpected_event in H.
  apply app_inv_head in H. apply app_inv_head in H.
  now apply app_inv_tail in H.
Qed.

(** A pair outside the table raises, and nothing of the instance changes. *)
Lemma send_illegal (self : Instance) (message : Message) (kind : pystr) :
  msg_type message = Some kind ->
  legal_pair (state self) kind = false ->
  send self message = (self, Raise (TypeError (unexpected_event (state self) kind))).
Proof.
  intros Hk Hl. unfold send. rewrite Hk.
  unfold legal_pair, response_start, response_body in Hl.
  destruct (state self); simpl; rewrite ?Hl; reflexivity.
Qed.


Lemma send_body (self : Instance) (message : Message) :
  state self = RESPONSE ->
  msg_type message = Some response_body ->
  send self message
  = if negb (get_or (msg_more_body message) false)
    then (queue_put (set_state (body_extend self (payload message)) COMPLETE)
                    HttpDisconnect, Ok tt)
    else (body_extend self (payload message), Ok tt).
Proof.
  intros Hs Hk. unfold send. rewrite Hk, Hs. reflexivity.
Qed.

(** Whatever [send] does, it moves the state as the table says, or raises
    and leaves the instance as it was. *)
Lemma send_cases (self : Instance) (message : Message) :
  match send self message with
  | (self', Ok _) => table_next (state self) message = Some (state self')
  | (self', Raise _) => self' = self
  end.
Proof.
  unfold send, table_next, response_start, response_body.
  destruct (msg_type message) as [kind|]; [|reflexivity].
  destruct (state self) eqn:Hs; simpl.
  - destruct (str_eqb kind _); [|reflexivity].
    destruct (msg_status message); [|reflexivity].
    destruct (decode_loop _ _); reflexivity.
  - destruct (str_eqb kind _); [|reflexivity].
    destruct (get_or (msg_more_body message) false); simpl; [|reflexivity].
    now rewrite Hs.
  - reflexivity.
Qed.

Lemma table_next_forward (s s' : HttpState) (message : Message) :
  table_next s message = Some s' -> forward s s'.
Proof.
  unfold table_next. destruct (msg_type message); [|discriminate].
  destruct s.
  - destruct (str_eqb _ _); [|discriminate]. intros [= <-]. constructor.
  - destruct (str_eqb _ _); [|discriminate].
    destruct (get_or _ _); intros [= <-]; constructor.
  - discriminate.
Qed.

Lemma receive_keeps_state (self self' : Instance) (m : QueueMessage) :
  receive self = Some (self', m) -> state self' = state self.
Proof.
  unfold receive, queue_get. destruct (app_queue self); [discriminate|].
  intros [= <- _]. reflexivity.
Qed.

Lemma legal_pair_spec (s : HttpState) (kind : pystr) :
  legal_pair s kind = true
  <-> (s = REQUEST /\ kind = response_start) \/ (s = RESPONSE /\ kind = response_body).
Proof.
  unfold legal_pair. destruct s; rewrite ?str_eqb_eq; split; intros H;
    try solve [intuition congruence | discriminate].
Qed.

(** After COMPLETE the table has no row. *)
Lemma legal_pair_complete (kind : pystr) : legal_pair COMPLETE kind = false.
Proof. reflexivity. Qed.

(** An unrecognised kind has no row in any state. *)
Lemma legal_pair_unrecognised (s : HttpState) (kind : pystr) :
  kind <> response_start -> kind <> response_body -> legal_pair s kind = false.
Proof.
  intros H1 H2. apply str_eqb_neq in H1, H2.
  destruct s; simpl; assumption || reflexivity.
Qed.

(** A second [response.start], and a [response.body] before any start. *)
Lemma legal_pair_out_of_order :
  legal_pair RESPONSE response_start = false /\ legal_pair REQUEST response_body = false.
Proof. split; reflexivity. Qed.

(** C2: every (state, kind) pair outside the three rows of the table makes
    [send] raise the protocol-violation error ([TypeError]) whose text names
    the current state and the kind, and the failing [send] changes nothing:
    neither the state, nor the buffer, nor the queue, nor the calls made to
    the response callback. *)
Theorem send_protocol_violation (self : Instance) (message : Message) (kind : pystr) :
  msg_type message = Some kind ->
  legal_pair (state self) kind = false ->
  send self message = (self, Raise (TypeError (unexpected_event (state self) kind)))
  /\ (forall s' kind',
         unexpected_event s' kind' = unexpected_event (state self) kind ->
         s' = state self /\ kind' = kind).
Proof.
  intros Hk Hl. split.
  - now apply send_illegal.
  - intros s' kind' H. now apply unexpected_event_inj.
Qed.

(** A [response.body] sent before any [response.start]: the error, and no
    call of the response callback. *)
Lemma send_protocol_violation_witness :
  let fresh := start_instance new_instance (Bytes []) in
  send fresh body_hello
  = (fresh, Raise (TypeError
       (lit "HttpState.REQUEST: Unexpected 'http.response.body' event received.")))
  /\ response_calls (fst (send fresh body_hello)) = [].
Proof.
  intros fresh.
  pose proof (send_protocol_violation fresh body_hello response_body eq_refl eq_refl)
    as [H _].
  split; [exact H | rewrite H; reflexivity].
Defined.

(** C7: a [send] that succeeds moves the state along REQUEST -> RESPONSE ->
    COMPLETE by exactly one of the three rows of the table; a [send] that
    raises leaves the state where it was; from COMPLETE no [send] succeeds
    and the state stays COMPLETE; [receive] never changes the state. *)
Theorem state_moves_forward (self self' : Instance) (message : Message)
    (r : result unit) :
  send self message = (self', r) ->
  match r with
  | Ok _ =>
      (state self = REQUEST /\ msg_type message = Some response_start
       /\ state self' = RESPONSE)
      \/ (state self = RESPONSE /\ msg_type message = Some response_body
          /\ get_or (msg_more_body message) false = true /\ state self' = RESPONSE)
      \/ (state self = RESPONSE /\ msg_type message = Some response_body
          /\ get_or (msg_more_body message) false = false /\ state self' = COMPLETE)
  | Raise _ => state self' = state self
  end
  /\ (state self = COMPLETE -> state self' = COMPLETE /\ exists e, r = Raise e)
  /\ (forall m self'', receive self = Some (self'', m) -> state self'' = state self).
Proof.
  intros H. pose proof (send_cases self message) as Hc. rewrite H in Hc.
  split; [|split].
  - destruct r as [[]|e]; [|now subst].
    unfold table_next in Hc.
    destruct (msg_type message) as [kind|]; [|discriminate].
    destruct (state self).
    + destruct (str_eqb kind response_start) eqn:E; [|discriminate].
      apply str_eqb_eq in E. subst kind. injection Hc as <-. now left.
    + destruct (str_eqb kind response_body) eqn:E; [|discriminate].
      apply str_eqb_eq in E. subst kind.
      destruct (get_or (msg_more_body message) false); injection Hc as <-;
        right; [left|right]; repeat split; reflexivity.
    + discriminate.
  - intros Hs. destruct r as [[]|e].
    + unfold table_next in Hc. rewrite Hs in Hc.
      destruct (msg_type message); discriminate.
    + subst self'. split; [assumption | now exists e].
  - intros m self''. apply receive_keeps_state.
Qed.

Lemma state_moves_forward_witness :
  state started_instance = RESPONSE /\ state completed_instance = COMPLETE
  /\ state (fst (send completed_instance start_200)) = COMPLETE.
Proof.
  pose proof (state_moves_forward started_instance (fst (send started_instance body_hello))
                body_hello (snd (send started_instance body_hello)) eq_refl) as [H1 _].
  pose proof (state_moves_forward completed_instance (fst (send completed_instance start_200))
                start_200 (snd (send completed_instance start_200)) eq_refl)
    as (_ & H2 & _).
  split; [reflexivity|]. split.
  - simpl in H1. destruct H1 as [H1|[H1|H1]].
    + destruct H1 as (H1 & _). discriminate H1.
    + destruct H1 as (_ & _ & H1 & _). discriminate H1.
    + destruct H1 as (_ & _ & _ & H1). exact H1.
  - exact (proj1 (H2 eq_refl)).
Defined.

(** One step of the event loop keeps a COMPLETE instance COMPLETE. *)
Lemma step_keeps_complete (self self' : Instance) (t t' : Coroutine) :
  step self t = Next self' t' -> state self = COMPLETE -> state self' = COMPLETE.
Proof.
  unfold step. destruct (observe t) as [r|t0|X e k]; [discriminate| |].
  - intros [= <- _]. auto.
  - destruct e as [|message].
    + destruct (receive self) as [[s m]|] eqn:E; [|discriminate].
      intros [= <- _] Hs. apply receive_keeps_state in E. congruence.
    + destruct (send self message) as [s r] eqn:E. intros [= <- _] Hs.
      pose proof (send_cases self message) as Hc. rewrite E in Hc.
      destruct r as [[]|e]; [|now subst].
      unfold table_next in Hc. rewrite Hs in Hc.
      destruct (msg_type message); discriminate.
Qed.

(** C10: defaults of [send] for absent optional keys.  In state REQUEST a
    [response.start] without [headers] (and a status within the limit of
    [str]) calls the response callback with the status text, an empty header
    list and [None].  In state RESPONSE a [response.body] without [body]
    leaves the buffer as it was, and a [response.body] without [more_body]
    does what it does with [more_body=False]: it returns, the state is
    COMPLETE, the disconnect message is at the end of the queue, and the
    payload is at the end of the buffer. *)
Theorem send_defaults (waiting started : Instance) (code : Z) (data : option bytes)
    (more : option bool) (status : option Z) (hdrs : option (list (bytes * bytes))) :
  state waiting = REQUEST ->
  state started = RESPONSE ->
  status_in_range code = true ->
  response_calls
    (fst (send waiting (mkMessage (Some response_start) (Some code) None data more)))
  = response_calls waiting ++ [mkResponseCall (str_of_int code) [] None]
  /\ body (fst (send started (mkMessage (Some response_body) status hdrs None more)))
     = body started
  /\ send started (mkMessage (Some response_body) status hdrs data None)
     = send started (mkMessage (Some response_body) status hdrs data (Some false))
  /\ snd (send started (mkMessage (Some response_body) status hdrs data None)) = Ok tt
  /\ state (fst (send started (mkMessage (Some response_body) status hdrs data None)))
     = COMPLETE
  /\ app_queue (fst (send started (mkMessage (Some response_body) status hdrs data None)))
     = app_queue started ++ [HttpDisconnect]
  /\ body (fst (send started (mkMessage (Some response_body) status hdrs data None)))
     = body started ++ get_or data [].
Proof.
  intros Hw Hs _. unfold send. cbn [msg_type msg_status msg_headers msg_body msg_more_body].
  rewrite Hw, Hs. cbn [HttpState_eqb andb]. unfold response_start, response_body.
  rewrite !str_eqb_refl. cbn [get_or decode_loop negb fst snd].
  repeat split.
  destruct more as [[|]|]; cbn [get_or negb fst]; apply app_nil_r.
Qed.

Lemma send_defaults_witness :
  response_calls (fst (send (start_instance new_instance (Bytes [])) bare_start))
  = [mkResponseCall (lit "204") [] None]
  /\ body (fst (send started_instance bare_body)) = []
  /\ state (fst (send started_instance bare_body)) = COMPLETE
  /\ app_queue (fst (send started_instance bare_body))
     = [HttpRequest (Bytes []) false; HttpDisconnect].
Proof.
  destruct (send_defaults (start_instance new_instance (Bytes [])) started_instance 204
              None None None None eq_refl eq_refl eq_refl)
    as (Hcall & Hbody & _ & _ & Hstate & Hqueue & _).
  repeat split; assumption.
Defined.

Example bare_messages :
  send_all (start_instance new_instance (Bytes [])) [bare_start; bare_body]
  = ({| body := []; state := COMPLETE;
        app_queue := [HttpRequest (Bytes []) false; HttpDisconnect];
        response_calls := [mkResponseCall (lit "204") [] None];
        put_history := [HttpRequest (Bytes []) false; HttpDisconnect];
        got_history := [] |}, Ok tt).
Proof. reflexivity. Qed.

(** ** Buffering of the response body *)

Lemma send_more_chunk (self : Instance) (m : Message) :
  state self = RESPONSE -> is_more_chunk m = true ->
  send self m = (body_extend self (payload m), Ok tt).
Proof.
  intros Hs Hm. unfold is_more_chunk in Hm.
  destruct (msg_type m) as [kind|] eqn:Hk; [|discriminate].
  destruct (msg_more_body m) as [[|]|] eqn:Hb; try discriminate.
  apply str_eqb_eq in Hm. subst kind.
  rewrite (send_body self m Hs Hk), Hb. reflexivity.
Qed.

Lemma send_last_chunk (self : Instance) (m : Message) :
  state self = RESPONSE -> is_last_chunk m = true ->
  send self m
  = (queue_put (set_state (body_extend self (payload m)) COMPLETE) HttpDisconnect, Ok tt).
Proof.
  intros Hs Hm. unfold is_last_chunk in Hm.
  destruct (msg_type m) as [kind|] eqn:Hk; [|discriminate].
  apply andb_true_iff in Hm as [Hm Hb].
  apply str_eqb_eq in Hm. subst kind.
  rewrite (send_body self m Hs Hk), Hb. reflexivity.
Qed.

(** Chunks with [more_body=True] only grow the buffer, in the order sent. *)
Lemma send_all_chunks (chunks rest : list Message) (self : Instance) :
  state self = RESPONSE ->
  forallb is_more_chunk chunks = true ->
  exists self',
    send_all self (chunks ++ rest) = send_all self' rest
    /\ state self' = RESPONSE
    /\ body self' = body self ++ concat (map payload chunks).
Proof.
  revert self. induction chunks as [|m chunks IH]; intros self Hs Hc.
  - exists self. simpl. now rewrite app_nil_r.
  - simpl in Hc. apply andb_true_iff in Hc as [Hm Hc].
    destruct (IH (body_extend self (payload m)) Hs Hc) as (self' & Hrun & Hs' & Hb).
    exists self'. simpl. rewrite (send_more_chunk self m Hs Hm).
    repeat split; try assumption.
    rewrite Hb. simpl. now rewrite app_assoc.
Qed.

(** Chunks and a closing message, from any started response: all of them
    are accepted and the buffer grows by their payloads, in order. *)
Lemma send_all_response (self : Instance) (chunks : list Message) (last : Message) :
  state self = RESPONSE ->
  forallb is_more_chunk chunks = true ->
  is_last_chunk last = true ->
  exists self',
    send_all self (chunks ++ [last]) = (self', Ok tt)
    /\ state self' = COMPLETE
    /\ body self' = body self ++ concat (map payload (chunks ++ [last])).
Proof.
  intros Hs Hc Hl.
  destruct (send_all_chunks chunks [last] self Hs Hc) as (mid & Hrun & Hs' & Hb').
  eexists. split; [|split].
  - rewrite Hrun. simpl. rewrite (send_last_chunk mid last Hs' Hl). reflexivity.
  - reflexivity.
  - simpl. rewrite Hb', map_app, concat_app. simpl.
    now rewrite app_nil_r, app_assoc.
Qed.

(** C6: starting from a started response with an empty buffer, any number of
    [response.body] messages with [more_body=True] followed by a closing
    [response.body] are all accepted, and the buffer ends up as the
    concatenation of their payloads in the order they were sent. *)
Theorem body_chunks_concatenate (self : Instance) (chunks : list Message)
    (last : Message) :
  state self = RESPONSE ->
  body self = [] ->
  forallb is_more_chunk chunks = true ->
  is_last_chunk last = true ->
  exists self',
    send_all self (chunks ++ [last]) = (self', Ok tt)
    /\ state self' = COMPLETE
    /\ body self' = concat (map payload (chunks ++ [last])).
Proof.
  intros Hs Hb Hc Hl.
  destruct (send_all_response self chunks last Hs Hc Hl) as (self' & Hrun & Hs' & Hb').
  exists self'. rewrite Hb in Hb'. now repeat split.
Qed.

Lemma body_chunks_concatenate_witness :
  exists self',
    send_all started_instance [chunk "he"; chunk ""; chunk "ll"; body_hello]
    = (self', Ok tt)
    /\ state self' = COMPLETE
    /\ body self' = blit "hellhello".
Proof.
  exact (body_chunks_concatenate started_instance [chunk "he"; chunk ""; chunk "ll"]
           body_hello eq_refl eq_refl eq_refl eq_refl).
Defined.

(** ** The event loop *)

Lemma run_loop_more_fuel (n m : nat) (self : Instance) (t : Coroutine)
    (r : Instance * Outcome unit) :
  run_loop n self t = Some r -> (n <= m)%nat -> run_loop m self t = Some r.
Proof.
  revert m self t. induction n as [|n IH]; intros m self t H Hle; [discriminate|].
  destruct m as [|m]; [lia|]. simpl in *.
  destruct (step self t); try assumption.
  apply IH; [assumption | lia].
Qed.

Lemma run_loop_send (n : nat) (self self' : Instance) (m : Message) (k : Coroutine) :
  send self m = (self', Ok tt) ->
  run_loop (S n) self (await_send m k) = run_loop n self' k.
Proof. intros H. simpl. unfold step. simpl. now rewrite H. Qed.

Lemma run_loop_return (n : nat) (self : Instance) (r : result unit) :
  run_loop (S n) self (Ret r) = Some (self, Finished r).
Proof. reflexivity. Qed.

Lemma steps_reachable (app : AsgiApp) (scope : Scope) (request_body : pybody)
    (n : nat) (self self' : Instance) (t t' : Coroutine) :
  reachable app scope request_body self t ->
  steps n self t = Some (self', t') ->
  reachable app scope request_body self' t'.
Proof.
  revert self t. induction n as [|n IH]; intros self t Hr Hs; simpl in Hs.
  - now injection Hs as <- <-.
  - destruct (step self t) as [s1 t1| |] eqn:E; try discriminate.
    apply (IH s1 t1); [|assumption]. now apply reach_step with self t.
Qed.

(** What [run_loop] returns is a configuration the task went through. *)
Lemma run_loop_reachable (app : AsgiApp) (scope : Scope) (request_body : pybody)
    (n : nat) (self self' : Instance) (t : Coroutine) (o : Outcome unit) :
  reachable app scope request_body self t ->
  run_loop n self t = Some (self', o) ->
  exists t', reachable app scope request_body self' t'.
Proof.
  revert self t. induction n as [|n IH]; intros self t Hr H; [discriminate|].
  simpl in H. destruct (step self t) as [s1 t1| |] eqn:E.
  - apply (IH s1 t1); [|assumption]. now apply reach_step with self t.
  - injection H as <- _. now exists t.
  - injection H as <- _. now exists t.
Qed.

(** ** The adapter, end to end *)

Section EndToEnd.

Variable str_lower : pystr -> pystr.

Lemma precondition_passes (environ : Environ) :
  is_http environ = true ->
  rbind (subscript environ "SERVER_PROTOCOL")
        (fun protocol => startswith_val protocol "HTTP") = Ok true.
Proof.
  unfold is_http, subscript.
  destruct (dict_get environ (lit "SERVER_PROTOCOL")) as [[protocol| | | | |]|];
    try discriminate.
  simpl. now intros ->.
Qed.

(** After the precondition, the call is the scope builder followed by the
    event loop. *)
Lemma call_unfold (fuel : nat) (app : AsgiApp) (environ : Environ) :
  is_http environ = true ->
  AsgiToWsgi_call str_lower fuel app environ
  = match build_scope_and_body str_lower environ with
    | Raise e => Some (mkCallResult (Finished (Raise e)) environ None)
    | Ok (scope, request_body, environ') =>
        match run_asgi_app fuel app new_instance scope request_body with
        | None => None
        | Some (self', Hangs) => Some (mkCallResult Hangs environ' (Some self'))
        | Some (self', Finished (Raise e)) =>
            Some (mkCallResult (Finished (Raise e)) environ' (Some self'))
        | Some (self', Finished (Ok _)) =>
            Some (mkCallResult (Finished (Ok [body self'])) environ' (Some self'))
        end
    end.
Proof.
  intros H. unfold AsgiToWsgi_call, AsgiToWsgiInstance_call.
  now rewrite (precondition_passes environ H).
Qed.

(** C1: on every environment that passes the precondition and from which
    the scope can be built, the callee that sends
    [response.start(status=200, headers=[(b"x", b"y")])] and then
    [response.body(body=b"hello", more_body=False)] makes the adapter call
    the response callback exactly once, with [("200", [("x", "y")], None)],
    and return the one-element sequence [(b"hello",)]. *)
Theorem hello_end_to_end (environ environ' : Environ) (scope : Scope)
    (request_body : pybody) (fuel : nat) :
  is_http environ = true ->
  build_scope_and_body str_lower environ = Ok (scope, request_body, environ') ->
  (3 <= fuel)%nat ->
  AsgiToWsgi_call str_lower fuel hello_app environ
  = Some {| outcome := Finished (Ok [blit "hello"]);
            environ_after := environ';
            ran := Some {| body := blit "hello";
                           state := COMPLETE;
                           app_queue := [HttpRequest request_body false; HttpDisconnect];
                           response_calls :=
                             [mkResponseCall (lit "200") [(lit "x", lit "y")] None];
                           put_history := [HttpRequest request_body false; HttpDisconnect];
                           got_history := [] |} |}.
Proof.
  intros Hhttp Hbuild Hfuel.
  rewrite (call_unfold fuel hello_app environ Hhttp), Hbuild.
  unfold run_asgi_app.
  assert (H3 : run_loop 3 (start_instance new_instance request_body) (hello_app scope)
               = Some ({| body := blit "hello";
                          state := COMPLETE;
                          app_queue := [HttpRequest request_body false; HttpDisconnect];
                          response_calls :=
                            [mkResponseCall (lit "200") [(lit "x", lit "y")] None];
                          put_history := [HttpRequest request_body false; HttpDisconnect];
                          got_history := [] |}, Finished (Ok tt)))
    by reflexivity.
  now rewrite (run_loop_more_fuel 3 fuel _ _ _ H3 Hfuel).
Qed.

(** C3: an environment whose [SERVER_PROTOCOL] does not start with ["HTTP"]
    makes the adapter raise the precondition error ([ValueError]) whatever
    the callee and the fuel: [run_asgi_app] is never entered, the callee is
    not invoked and the input stream is not read. *)
Theorem non_http_rejected (fuel : nat) (app : AsgiApp) (environ : Environ)
    (protocol : pystr) :
  dict_get environ (lit "SERVER_PROTOCOL") = Some (EStr protocol) ->
  startswith protocol (lit "HTTP") = false ->
  AsgiToWsgi_call str_lower fuel app environ
  = Some {| outcome :=
              Finished (Raise (ValueError (lit "ASGI wrapper received a non-HTTP environ")));
            environ_after := environ;
            ran := None |}.
Proof.
  intros Hp Hs. unfold AsgiToWsgi_call, AsgiToWsgiInstance_call, subscript.
  rewrite Hp. cbn [rbind startswith_val]. now rewrite Hs.
Qed.

End EndToEnd.

Lemma hello_end_to_end_witness :
  AsgiToWsgi_call ascii_lower 3 hello_app minimal_environ
  = Some {| outcome := Finished (Ok [blit "hello"]);
            environ_after := firstn 8 minimal_environ ++ [(lit "wsgi.input", EStream [])];
            ran := Some {| body := blit "hello";
                           state := COMPLETE;
                           app_queue := [HttpRequest (Bytes (blit "ping")) false;
                                         HttpDisconnect];
                           response_calls :=
                             [mkResponseCall (lit "200") [(lit "x", lit "y")] None];
                           put_history := [HttpRequest (Bytes (blit "ping")) false;
                                           HttpDisconnect];
                           got_history := [] |} |}.
Proof.
  exact (hello_end_to_end ascii_lower minimal_environ _ _ _ 3 eq_refl eq_refl (le_n 3)).
Defined.

Lemma non_http_rejected_witness :
  AsgiToWsgi_call ascii_lower 0 hello_app gopher_environ
  = Some {| outcome :=
              Finished (Raise (ValueError (lit "ASGI wrapper received a non-HTTP environ")));
            environ_after := gopher_environ;
            ran := None |}.
Proof.
  exact (non_http_rejected ascii_lower 0 hello_app gopher_environ (lit "GOPHER/1.0")
           eq_refl eq_refl).
Defined.

(** ** The scope builder *)

Section ScopeBuilderFacts.

Variable str_lower : pystr -> pystr.

Local Open Scope string_scope.

Ltac lookups :=
  unfold subscript;
  repeat match goal with
         | |- context [dict_get ?e (lit ?k)] =>
             let E := fresh "Hget" in
             destruct (dict_get e (lit k)) eqn:E; cbn [rbind]
         end.

(** The accumulator of the header loop is only ever appended to. *)
Lemma header_loop_acc (items : Environ) (acc : list (bytes * bytes)) :
  header_loop str_lower items acc
  = rbind (header_loop str_lower items []) (fun hs => Ok (acc ++ hs)%list).
Proof.
  revert acc. induction items as [|[name value] items IH]; intros acc;
    cbn [header_loop rbind].
  - now rewrite app_nil_r.
  - destruct (corrected_name str_lower name) as [cname|]; [|apply IH].
    destruct (encode (EStr cname)) as [n|e]; [|reflexivity].
    destruct (encode value) as [v|e]; [|reflexivity].
    cbn [rbind]. rewrite IH. rewrite (IH ([] ++ [(n, v)])%list).
    destruct (header_loop str_lower items []) as [hs|e]; [|reflexivity].
    cbn [rbind]. now rewrite <- app_assoc.
Qed.

Lemma corrected_name_none (name : pystr) (value : envval) :
  corrected_name str_lower name = None <-> header_key (name, value) = false.
Proof.
  unfold corrected_name, header_key. simpl fst.
  destruct (startswith name (lit "HTTP_")); [split; discriminate|].
  destruct (str_eqb name (lit "CONTENT_LENGTH")); [split; discriminate|].
  destruct (str_eqb name (lit "CONTENT_TYPE")); [split; discriminate|].
  split; reflexivity.
Qed.

(** [s.replace("_", "-")] puts a hyphen in the place of every underscore
    and leaves the rest. *)
Lemma replace_char_hyphenated (s : pystr) :
  hyphenated s (replace_char underscore hyphen s).
Proof.
  unfold hyphenated, replace_char, underscore, hyphen.
  induction s as [|c s IH]; cbn [map]; constructor; [|exact IH].
  destruct (N.eqb_spec c 95); [left | right]; now split.
Qed.

Lemma hyphenated_replace_char (s t : pystr) :
  hyphenated s t -> t = replace_char underscore hyphen s.
Proof.
  unfold hyphenated, replace_char, underscore, hyphen.
  induction 1 as [|c d s t [[-> ->]|[Hc ->]] _ IH]; cbn [map]; [reflexivity| |].
  - now rewrite IH.
  - apply N.eqb_neq in Hc. now rewrite Hc, IH.
Qed.

(** One iteration of the loop body yields the header the specification
    describes. *)
Lemma entry_header (name cname : pystr) (value : envval) (n v : bytes) :
  corrected_name str_lower name = Some cname ->
  encode (EStr cname) = Ok n ->
  encode value = Ok v ->
  header_of str_lower (name, value) (n, v).
Proof.
  intros Hc Hn Hv.
  destruct value as [text| | | | |]; try discriminate.
  unfold encode in Hn, Hv.
  destruct (utf8_encode text) as [v'|] eqn:Ev; [|discriminate].
  injection Hv as ->.
  unfold corrected_name in Hc.
  destruct (startswith name (lit "HTTP_")) eqn:Eh.
  - injection Hc as <-.
    destruct (utf8_encode _) as [n'|] eqn:En in Hn; [|discriminate].
    injection Hn as ->.
    rewrite (startswith_split name (lit "HTTP_") Eh) at 1.
    apply header_http with (replace_char underscore hyphen (str_lower (skipn 5 name)));
      [apply replace_char_hyphenated | assumption | assumption].
  - destruct (str_eqb name (lit "CONTENT_LENGTH")) eqn:El.
    + apply str_eqb_eq in El. subst name. injection Hc as <-.
      injection Hn as <-. now apply header_content_length.
    + destruct (str_eqb name (lit "CONTENT_TYPE")) eqn:Et; [|discriminate].
      apply str_eqb_eq in Et. subst name. injection Hc as <-.
      injection Hn as <-. now apply header_content_type.
Qed.

(** The loop yields one header per header key, in the order of [environ],
    and nothing for the other keys. *)
Lemma header_loop_sound (items : Environ) (hs : list (bytes * bytes)) :
  header_loop str_lower items [] = Ok hs ->
  Forall2 (header_of str_lower) (filter header_key items) hs.
Proof.
  revert hs. induction items as [|[name value] items IH]; intros hs H;
    cbn [header_loop] in H.
  - injection H as <-. constructor.
  - cbn [filter].
    destruct (corrected_name str_lower name) as [cname|] eqn:Ec.
    + assert (Hk : header_key (name, value) = true).
      { destruct (header_key (name, value)) eqn:E; [reflexivity|].
        apply corrected_name_none in E. congruence. }
      rewrite Hk.
      destruct (encode (EStr cname)) as [n|e] eqn:En; [|discriminate].
      destruct (encode value) as [v|e] eqn:Ev; [|discriminate].
      cbn [rbind] in H. rewrite header_loop_acc in H.
      destruct (header_loop str_lower items []) as [hs'|e]; [|discriminate].
      injection H as <-. simpl. constructor; [|now apply IH].
      now apply entry_header with cname.
    + pose proof (proj1 (corrected_name_none name value) Ec) as Hk.
      rewrite Hk. now apply IH.
Qed.

(** The loop succeeds when every header entry can be encoded. *)
Lemma header_loop_total (items : Environ) :
  forallb (header_entry_ok str_lower) items = true ->
  exists hs, header_loop str_lower items [] = Ok hs.
Proof.
  induction items as [|[name value] items IH]; intros H;
    cbn [header_loop forallb] in *.
  - now exists [].
  - apply andb_true_iff in H as [He Hi]. destruct (IH Hi) as [hs Hhs].
    unfold header_entry_ok in He. cbn [fst snd] in He.
    destruct (corrected_name str_lower name) as [cname|]; [|now exists hs].
    unfold encode.
    destruct (utf8_encode cname) as [n|]; [|discriminate].
    destruct value as [text| | | | |]; try discriminate.
    destruct (utf8_encode text) as [v|]; [|discriminate].
    cbn [rbind]. rewrite header_loop_acc, Hhs. cbn [rbind]. eexists. reflexivity.
Qed.

(** What a successful call of the builder tells about [environ]. *)
Lemma build_scope_and_body_inv (environ environ' : Environ) (scope : Scope)
    (request_body : pybody) :
  build_scope_and_body str_lower environ = Ok (scope, request_body, environ') ->
  header_loop str_lower environ [] = Ok (headers scope)
  /\ ((dict_get environ (lit "wsgi.input") = Some ENone
       /\ request_body = Text [] /\ environ' = environ)
      \/ (exists data, dict_get environ (lit "wsgi.input") = Some (EStream data)
          /\ request_body = Bytes data /\ environ' = drain_input environ)).
Proof.
  unfold build_scope_and_body.
  destruct (header_loop str_lower environ []) as [hs|e]; [|discriminate].
  cbn [rbind].
  lookups; try discriminate;
    (destruct (slice_from_5 _) as [version|]; cbn [rbind]; try discriminate).
  match goal with
  | |- match ?x with EStr _ => _ | _ => _ end = _ -> _ => destruct x as [s| |data| | |]
  end; try discriminate; cbn [read rbind]; intros H; injection H as <- <- <-.
  - split; [reflexivity|]. left. repeat split; reflexivity.
  - split; [reflexivity|]. right. exists data. repeat split; reflexivity.
Qed.

Lemma has_key_get (environ : Environ) (key : string) :
  has_key environ key = true -> exists v, dict_get environ (lit key) = Some v.
Proof.
  unfold has_key. destruct (dict_get environ (lit key)) as [v|]; [|discriminate].
  now exists v.
Qed.

(** The builder succeeds on a well-formed environment. *)
Lemma build_scope_and_body_total (environ : Environ) :
  environ_ok str_lower environ = true ->
  exists scope request_body environ',
    build_scope_and_body str_lower environ = Ok (scope, request_body, environ').
Proof.
  unfold environ_ok, has_required_keys, is_http, has_input.
  intros H. apply andb_true_iff in H as [H Hinput].
  apply andb_true_iff in H as [H Hhttp]. apply andb_true_iff in H as [H Hkeys].
  repeat (apply andb_true_iff in Hkeys as [Hkeys ?]).
  destruct (header_loop_total environ H) as [hs Hhs].
  unfold build_scope_and_body. rewrite Hhs. cbn [rbind].
  repeat match goal with
         | Hk : has_key _ _ = true |- _ => apply has_key_get in Hk as [? Hk]
         end.
  unfold subscript.
  repeat match goal with
         | Hk : dict_get _ _ = Some _ |- _ => rewrite Hk in *; clear Hk
         end.
  destruct (dict_get environ (lit "SERVER_PROTOCOL")) as [[protocol| | | | |]|];
    try discriminate.
  destruct (dict_get environ (lit "wsgi.input")) as [[s| |data| | |]|];
    try discriminate; cbn [slice_from_5 read rbind]; do 3 eexists; reflexivity.
Qed.

(** C4: on a well-formed environment the builder returns a scope whose
    headers are, in the iteration order of [environ], exactly one pair per
    key that starts with [HTTP_] (name: the rest of the key, lowercased, with
    hyphens for underscores, UTF-8 encoded; value: the UTF-8 encoding of the
    entry's string), per key [CONTENT_LENGTH] (name [content-length]) and per
    key [CONTENT_TYPE] (name [content-type]); no other key yields a header. *)
Theorem scope_headers_exact (environ : Environ) :
  environ_ok str_lower environ = true ->
  exists scope request_body environ',
    build_scope_and_body str_lower environ = Ok (scope, request_body, environ')
    /\ Forall2 (header_of str_lower) (filter header_key environ) (headers scope).
Proof.
  intros Hok.
  destruct (build_scope_and_body_total environ Hok) as (scope & b & environ' & Hb).
  exists scope, b, environ'. split; [assumption|].
  apply header_loop_sound. now apply build_scope_and_body_inv in Hb as [Hh _].
Qed.

(** Whenever the builder returns, the headers are those of the
    specification. *)
Lemma scope_headers_sound (environ environ' : Environ) (scope : Scope)
    (request_body : pybody) :
  build_scope_and_body str_lower environ = Ok (scope, request_body, environ') ->
  Forall2 (header_of str_lower) (filter header_key environ) (headers scope).
Proof.
  intros Hb. apply header_loop_sound. now apply build_scope_and_body_inv in Hb as [Hh _].
Qed.

(** An input stream is read to its end in one call, and the whole of it is
    the request body. *)
Lemma stream_read_whole (environ environ' : Environ) (scope : Scope)
    (request_body : pybody) (data : bytes) :
  dict_get environ (lit "wsgi.input") = Some (EStream data) ->
  build_scope_and_body str_lower environ = Ok (scope, request_body, environ') ->
  request_body = Bytes data /\ environ' = drain_input environ.
Proof.
  intros Hin Hb. apply build_scope_and_body_inv in Hb as [_ [(H & _)|(d & H & Hr & He)]].
  - congruence.
  - rewrite Hin in H. injection H as <-. now split.
Qed.

Lemma drain_input_drained (environ : Environ) (data : bytes) :
  dict_get environ (lit "wsgi.input") = Some (EStream data) ->
  dict_get (drain_input environ) (lit "wsgi.input") = Some (EStream []).
Proof.
  induction environ as [|[k v] environ IH]; [discriminate|].
  cbn [dict_get drain_input].
  destruct (str_eqb k (lit "wsgi.input")) eqn:E.
  - intros [= ->]. cbn [dict_get]. now rewrite E.
  - intros H. cbn [dict_get]. rewrite E. now apply IH.
Qed.

(** With ['wsgi.input'] bound to [None] the body is the text [''], not
    [bytes]. *)
Lemma none_input_gives_text (environ environ' : Environ) (scope : Scope)
    (request_body : pybody) :
  dict_get environ (lit "wsgi.input") = Some ENone ->
  build_scope_and_body str_lower environ = Ok (scope, request_body, environ') ->
  request_body = Text [] /\ environ' = environ.
Proof.
  intros Hin Hb. apply build_scope_and_body_inv in Hb as [_ [(_ & Hr & He)|(d & H & _)]].
  - now split.
  - congruence.
Qed.

(** C8, at an environment whose ['wsgi.input'] is [None]: the builder
    returns the empty text string [''] as the body, which is not a [bytes]
    value. *)
Theorem missing_stream_body_is_text :
  build_scope_and_body str_lower environ_without_stream
  = Ok (sample_scope, Text (lit ""), environ_without_stream)
  /\ forall data : bytes, Text (lit "") <> Bytes data.
Proof. split; [reflexivity | discriminate]. Qed.


End ScopeBuilderFacts.

Lemma scope_headers_exact_witness :
  exists scope request_body environ',
    build_scope_and_body ascii_lower environ_with_headers
    = Ok (scope, request_body, environ')
    /\ Forall2 (header_of ascii_lower) (filter header_key environ_with_headers)
               (headers scope)
    /\ headers scope = [ (blit "x-foo", blit "Bar_Baz");
                         (blit "content-type", blit "text/plain");
                         (blit "content-length", blit "4") ].
Proof.
  destruct (scope_headers_exact ascii_lower environ_with_headers eq_refl)
    as (scope & request_body & environ' & Hbuild & Hheaders).
  exists scope, request_body, environ'.
  split; [exact Hbuild|]. split; [exact Hheaders|].
  assert (E : option_map headers
                (match build_scope_and_body ascii_lower environ_with_headers with
                 | Ok (sc, _, _) => Some sc
                 | Raise _ => None
                 end)
              = Some [ (blit "x-foo", blit "Bar_Baz");
                       (blit "content-type", blit "text/plain");
                       (blit "content-length", blit "4") ]) by reflexivity.
  rewrite Hbuild in E. now injection E.
Defined.

(** [HTTP_X_FOO] becomes [x-foo]; [CONTENT_TYPE] and [CONTENT_LENGTH] keep
    their place in the order of [environ]; [HTTPS] and [wsgi.version] yield
    nothing. *)
Example headers_of_sample :
  option_map headers
    (match build_scope_and_body ascii_lower environ_with_headers with
     | Ok (scope, _, _) => Some scope
     | Raise _ => None
     end)
  = Some [ (blit "x-foo", blit "Bar_Baz");
           (blit "content-type", blit "text/plain");
           (blit "content-length", blit "4") ].
Proof. reflexivity. Qed.


(** What the adapter raises there, and for a header string with a lone
    surrogate. *)
Example unencodable_header_without_input :
  AsgiToWsgi_call ascii_lower 0 hello_app environ_none_header
  = Some {| outcome := Finished (Raise (AttributeError (lit "encode")));
            environ_after := environ_none_header;
            ran := None |}
  /\ AsgiToWsgi_call ascii_lower 0 hello_app environ_surrogate_header
     = Some {| outcome := Finished (Raise UnicodeEncodeError);
               environ_after := environ_surrogate_header;
               ran := None |}.
Proof. split; reflexivity. Qed.


(** ** The channel *)

Lemma channel_inv_start (request_body : pybody) :
  channel_inv request_body (start_instance new_instance request_body).
Proof. split; reflexivity. Qed.

Lemma send_keeps_channel (request_body : pybody) (self : Instance) (m : Message) :
  channel_inv request_body self -> channel_inv request_body (fst (send self m)).
Proof.
  intros [Hput Hfifo]. unfold send.
  destruct (msg_type m) as [kind|]; [|now split].
  destruct (state self) eqn:Hs; cbn [HttpState_eqb andb].
  - destruct (str_eqb kind _); cbn [fst]; [|unfold channel_inv; now rewrite Hs].
    destruct (msg_status m); cbn [fst]; [|unfold channel_inv; now rewrite Hs].
    destruct (decode_loop _ _); cbn [fst]; [|unfold channel_inv; now rewrite Hs].
    unfold channel_inv. simpl. now split.
  - destruct (str_eqb kind _); cbn [fst]; [|unfold channel_inv; now rewrite Hs].
    destruct (negb _); unfold channel_inv; simpl; rewrite ?Hs.
    + rewrite Hput at 1. split; [reflexivity|].
      rewrite Hfifo. now rewrite app_assoc.
    + now split.
  - cbn [fst]. unfold channel_inv. now rewrite Hs.
Qed.

Lemma receive_keeps_channel (request_body : pybody) (self self' : Instance)
    (m : QueueMessage) :
  channel_inv request_body self ->
  receive self = Some (self', m) ->
  channel_inv request_body self'.
Proof.
  intros [Hput Hfifo]. unfold receive, queue_get.
  destruct (app_queue self) as [|m' rest] eqn:Hq; [discriminate|].
  intros [= <- <-]. unfold channel_inv. simpl. split; [assumption|].
  rewrite Hfifo. now rewrite <- app_assoc.
Qed.

Lemma step_keeps_channel (request_body : pybody) (self self' : Instance)
    (t t' : Coroutine) :
  channel_inv request_body self ->
  step self t = Next self' t' ->
  channel_inv request_body self'.
Proof.
  intros Hinv. unfold step. destruct (observe t) as [r|t0|X e k]; [discriminate| |].
  - now intros [= <- _].
  - destruct e as [|message].
    + destruct (receive self) as [[s m]|] eqn:E; [|discriminate].
      intros [= <- _]. now apply receive_keeps_channel with self m.
    + pose proof (send_keeps_channel request_body self message Hinv) as H.
      destruct (send self message) as [s r]. now intros [= <- _].
Qed.

Lemma reachable_channel_inv (app : AsgiApp) (scope : Scope) (request_body : pybody)
    (self : Instance) (t : Coroutine) :
  reachable app scope request_body self t -> channel_inv request_body self.
Proof.
  induction 1 as [|self t self' t' _ IH Hstep].
  - apply channel_inv_start.
  - now apply step_keeps_channel with self t t'.
Qed.

(** C5, as the code has it: at every point of every run the adapter has put
    the request message first and nothing else, except the disconnect
    message, which is there exactly when the state is COMPLETE and is then
    last; messages are received in the order they were put; and once the
    body is complete a [receive()] gets the disconnect message if the request
    message has been received and the disconnect message has not, gets the
    request message if nothing has been received yet, and suspends if both
    have been received. *)
Theorem channel_order (app : AsgiApp) (scope : Scope) (request_body : pybody)
    (self : Instance) (t : Coroutine) :
  reachable app scope request_body self t ->
  put_history self
  = HttpRequest request_body false
    :: (if HttpState_eqb (state self) COMPLETE then [HttpDisconnect] else [])
  /\ put_history self = got_history self ++ app_queue self
  /\ (state self = COMPLETE ->
      got_history self = [HttpRequest request_body false] ->
      exists self', receive self = Some (self', HttpDisconnect))
  /\ (state self = COMPLETE ->
      got_history self = [] ->
      exists self', receive self = Some (self', HttpRequest request_body false))
  /\ (got_history self = put_history self -> receive self = None).
Proof.
  intros Hr. destruct (reachable_channel_inv _ _ _ _ _ Hr) as [Hput Hfifo].
  split; [assumption|]. split; [assumption|].
  unfold receive, queue_get. repeat split.
  - intros Hs Hg. rewrite Hs, Hfifo, Hg in Hput. simpl in Hput.
    injection Hput as Hq. rewrite Hq. eexists. reflexivity.
  - intros Hs Hg. rewrite Hs, Hfifo, Hg in Hput. simpl in Hput.
    rewrite Hput. eexists. reflexivity.
  - intros Hg. rewrite Hfifo in Hg.
    rewrite <- (app_nil_r (got_history self)) in Hg at 1.
    apply app_inv_head in Hg. now rewrite <- Hg.
Qed.

Lemma lingering_app_answered :
  steps 3 (start_instance new_instance (Bytes [])) (lingering_app sample_scope)
  = Some (answered_instance, receive_twice).
Proof. reflexivity. Qed.

Lemma lingering_app_drained :
  steps 4 (start_instance new_instance (Bytes [])) (lingering_app sample_scope)
  = Some (drained_instance, receive_once).
Proof. reflexivity. Qed.

Lemma channel_order_witness :
  (exists self', receive answered_instance = Some (self', HttpDisconnect))
  /\ receive drained_instance = None.
Proof.
  split.
  - exact (proj1 (proj2 (proj2
             (channel_order lingering_app sample_scope (Bytes [])
                answered_instance receive_twice
                (steps_reachable _ _ _ 3 _ _ _ _ (reach_start _ _ _)
                                 lingering_app_answered))))
           eq_refl eq_refl).
  - exact (proj2 (proj2 (proj2 (proj2
             (channel_order lingering_app sample_scope (Bytes [])
                drained_instance receive_once
                (steps_reachable _ _ _ 4 _ _ _ _ (reach_start _ _ _)
                                 lingering_app_drained)))))
           eq_refl).
Defined.

(** C5 as stated fails: [lingering_app] completes the body, receives the
    disconnect message, and its next [receive()] finds the queue empty; the
    state is COMPLETE and the call is not answered with a disconnect
    message. *)
Lemma receive_after_completion_suspends : ~ receive_after_completion_claim.
Proof.
  intros claim.
  destruct (claim lingering_app sample_scope (Bytes []) drained_instance receive_once
              (fun _ => Ret (Ok tt))
              (steps_reachable _ _ _ 4 _ _ _ _ (reach_start _ _ _) lingering_app_drained)
              eq_refl eq_refl) as [self' H].
  discriminate H.
Qed.

(** End to end, the adapter never returns on [lingering_app]. *)
Example lingering_app_hangs :
  option_map outcome (AsgiToWsgi_call ascii_lower 5 lingering_app minimal_environ)
  = Some Hangs.
Proof. reflexivity. Qed.

(** A [receive()] after completion by a callee that had not read the
    request gets the request message, not the disconnect message. *)
Example eager_app_gets_request :
  option_map (fun r => option_map got_history (ran r))
             (AsgiToWsgi_call ascii_lower 4 eager_app minimal_environ)
  = Some (Some [HttpRequest (Bytes (blit "ping")) false]).
Proof. reflexivity. Qed.

Lemma eager_app_completed :
  steps 2 (start_instance new_instance (Bytes [])) (eager_app sample_scope)
  = Some (completed_instance, receive_once).
Proof. reflexivity. Qed.

(** The same claim fails on [eager_app] too: its [receive()] after
    completion is answered with the request message. *)
Lemma receive_after_completion_gets_request : ~ receive_after_completion_claim.
Proof.
  intros claim.
  destruct (claim eager_app sample_scope (Bytes []) completed_instance receive_once
              (fun _ => Ret (Ok tt))
              (steps_reachable _ _ _ 2 _ _ _ _ (reach_start _ _ _) eager_app_completed)
              eq_refl eq_refl) as [self' H].
  discriminate H.
Qed.

(** ** Chunked responses, end to end *)

(** A callee that only sends: the event loop applies its messages one after
    the other. *)
Lemma run_loop_sends (messages : list Message) (k : Coroutine) (n : nat)
    (self self' : Instance) :
  send_all self messages = (self', Ok tt) ->
  run_loop (length messages + n) self (fold_right await_send k messages)
  = run_loop n self' k.
Proof.
  revert self. induction messages as [|m messages IH]; intros self H.
  - now injection H as <-.
  - cbn [send_all] in H.
    destruct (send self m) as [s [[]|e]] eqn:E; [|discriminate].
    cbn [length fold_right Nat.add].
    rewrite (run_loop_send _ self s m _ E). now apply IH.
Qed.

(** X18: What the adapter returns for a chunked response is the one chunk made
    of all the payloads, in the order they were sent. *)
Lemma chunked_response_end_to_end (str_lower : pystr -> pystr)
    (environ environ' : Environ) (scope : Scope) (request_body : pybody)
    (chunks : list Message) (last : Message) (fuel : nat) :
  is_http environ = true ->
  build_scope_and_body str_lower environ = Ok (scope, request_body, environ') ->
  forallb is_more_chunk chunks = true ->
  is_last_chunk last = true ->
  (length chunks + 3 <= fuel)%nat ->
  option_map outcome (AsgiToWsgi_call str_lower fuel (chunked_app chunks last) environ)
  = Some (Finished (Ok [concat (map payload (chunks ++ [last]))])).
Proof.
  intros Hhttp Hbuild Hc Hl Hfuel.
  rewrite (call_unfold str_lower fuel _ environ Hhttp), Hbuild.
  unfold run_asgi_app, chunked_app.
  set (fresh := start_instance new_instance request_body).
  set (started := fst (send fresh start_200)).
  destruct (send_all_response started chunks last eq_refl Hc Hl)
    as (self' & Hrun & Hs & Hb).
  assert (Hall : send_all fresh (start_200 :: chunks ++ [last]) = (self', Ok tt))
    by exact Hrun.
  pose proof (run_loop_sends _ (Ret (Ok tt)) 1 fresh self' Hall) as Hloop.
  rewrite run_loop_return in Hloop.
  rewrite (run_loop_more_fuel _ fuel _ _ _ Hloop).
  - cbn [option_map outcome]. now rewrite Hb.
  - cbn [length]. rewrite length_app. cbn [length]. lia.
Qed.

(** * Further properties of the adapter *)

(** ** The precondition and the scope builder *)

Section BuilderMore.

Variable str_lower : pystr -> pystr.

Local Open Scope string_scope.

Ltac split_lookups :=
  unfold subscript;
  repeat match goal with
         | |- context [dict_get ?e (lit ?k)] =>
             let E := fresh "Hget" in
             destruct (dict_get e (lit k)) eqn:E; cbn [rbind]
         end.

(** X1: An environment that does not pass the precondition never reaches the
    scope builder or the callee, whatever the reason, and is left as it was:
    the adapter raises [KeyError] when [SERVER_PROTOCOL] is absent,
    [ValueError] when it is a string that does not start with ["HTTP"],
    [TypeError] when it is [bytes] (whose [startswith] refuses a [str]), and
    [AttributeError] when it is [None], a stream, a tuple or a [bool]. *)
Theorem not_http_never_runs (fuel : nat) (app : AsgiApp) (environ : Environ)
    (e : exn) :
  precondition_error environ = Some e ->
  AsgiToWsgi_call str_lower fuel app environ
  = Some {| outcome := Finished (Raise e); environ_after := environ; ran := None |}.
Proof.
  unfold precondition_error, AsgiToWsgi_call, AsgiToWsgiInstance_call, subscript.
  destruct (dict_get environ (lit "SERVER_PROTOCOL")) as [[p| | | | |]|];
    cbn [rbind startswith_val]; try (intros [= <-]; reflexivity).
  destruct (startswith p (lit "HTTP")); [discriminate|].
  intros [= <-]. reflexivity.
Qed.

(** The precondition passes exactly on the environments whose
    [SERVER_PROTOCOL] is a string that starts with ["HTTP"]. *)
Lemma precondition_error_none (environ : Environ) :
  precondition_error environ = None <-> is_http environ = true.
Proof.
  unfold precondition_error, is_http.
  destruct (dict_get environ (lit "SERVER_PROTOCOL")) as [[p| | | | |]|];
    try (split; discriminate).
  destruct (startswith p (lit "HTTP")); split; congruence.
Qed.

(** The header loop returns only if every header entry can be encoded. *)
Lemma header_loop_ok_entries (items : Environ) (hs : list (bytes * bytes)) :
  header_loop str_lower items [] = Ok hs ->
  forallb (header_entry_ok str_lower) items = true.
Proof.
  revert hs. induction items as [|[name value] items IH]; intros hs H;
    cbn [header_loop forallb] in *; [reflexivity|].
  unfold header_entry_ok at 1. cbn [fst snd].
  destruct (corrected_name str_lower name) as [cname|]; [|now apply IH with hs].
  unfold encode in H.
  destruct (utf8_encode cname) as [n|]; [|discriminate].
  destruct value as [text| | | | |]; try discriminate.
  destruct (utf8_encode text) as [v|]; [|discriminate].
  cbn [rbind] in H. rewrite header_loop_acc in H.
  destruct (header_loop str_lower items []) as [hs'|]; [|discriminate].
  now apply IH with hs'.
Qed.

(** X2: [build_scope_and_body] returns exactly on the environments whose header
    entries can be encoded, that have the eight CGI variables with
    [SERVER_PROTOCOL] something that can be sliced (a string, [bytes] or a
    tuple), and that bind ['wsgi.input'] to a stream or to [None]; on every
    other environment it raises. *)
Theorem builder_returns_iff (environ : Environ) :
  (exists r, build_scope_and_body str_lower environ = Ok r)
  <-> builder_ok str_lower environ = true.
Proof.
  unfold builder_ok, has_required_keys, protocol_sliceable, has_input, has_key.
  split.
  - intros [r H]. revert H. unfold build_scope_and_body.
    destruct (header_loop str_lower environ []) as [hs|e] eqn:Hh; [|discriminate].
    rewrite (header_loop_ok_entries environ hs Hh). cbn [rbind].
    split_lookups; try discriminate;
      (match goal with
       | |- context [slice_from_5 ?x] => destruct x; cbn [slice_from_5 rbind]
       end; try discriminate);
      (match goal with
       | |- match ?x with EStr _ => _ | _ => _ end = _ -> _ =>
           destruct x; cbn [read rbind]
       end; try discriminate); reflexivity.
  - intros H. apply andb_true_iff in H as [H Hinput].
    apply andb_true_iff in H as [H Hproto]. apply andb_true_iff in H as [H Hkeys].
    repeat (apply andb_true_iff in Hkeys as [Hkeys ?]).
    destruct (header_loop_total str_lower environ H) as [hs Hhs].
    unfold build_scope_and_body. rewrite Hhs. cbn [rbind].
    revert Hinput Hproto. split_lookups; try discriminate.
    match goal with
    | |- match ?x with EStr _ => _ | _ => _ end = true -> _ => destruct x
    end; try discriminate; intros _;
      match goal with
      | |- match ?x with EStr _ => _ | _ => _ end = true -> _ => destruct x
      end; try discriminate; intros _; cbn [slice_from_5 read rbind];
      eexists; reflexivity.
Qed.

(** X3: When a CGI variable of the scope is missing, the adapter raises
    [KeyError] for the first missing one in the order the builder subscripts
    them, and neither reads the stream nor invokes the callee. *)
Theorem first_missing_key_raised (fuel : nat) (app : AsgiApp) (environ : Environ)
    (hs : list (bytes * bytes)) (key : string) :
  is_http environ = true ->
  header_loop str_lower environ [] = Ok hs ->
  first_missing environ = Some key ->
  AsgiToWsgi_call str_lower fuel app environ
  = Some {| outcome := Finished (Raise (KeyError (lit key)));
            environ_after := environ;
            ran := None |}.
Proof.
  intros Hhttp Hhs.
  rewrite (call_unfold str_lower fuel app environ Hhttp).
  unfold is_http in Hhttp.
  destruct (dict_get environ (lit "SERVER_PROTOCOL")) as [[p| | | | |]|] eqn:Hp;
    try discriminate.
  unfold build_scope_and_body, first_missing, scope_keys, has_key, subscript.
  cbn [find]. rewrite Hhs, !Hp. cbn [rbind slice_from_5 negb].
  split_lookups; cbn [negb]; intros H; try discriminate H;
    injection H as <-; reflexivity.
Qed.

(** X4: The scope carries the CGI variables as they are in [environ]; the HTTP
    version is [SERVER_PROTOCOL] sliced from its sixth element on, which for
    a string is the string without its first five characters, whatever the
    fifth is; the scheme is ['wsgi.url_scheme'], or ["http"] when that key is
    absent. *)
Theorem scope_fields (environ environ' : Environ) (scope : Scope)
    (request_body : pybody) :
  build_scope_and_body str_lower environ = Ok (scope, request_body, environ') ->
  scope_type scope = lit "http"
  /\ dict_get environ (lit "REQUEST_METHOD") = Some (method scope)
  /\ dict_get environ (lit "SCRIPT_NAME") = Some (root_path scope)
  /\ dict_get environ (lit "PATH_INFO") = Some (path scope)
  /\ dict_get environ (lit "QUERY_STRING") = Some (query_string scope)
  /\ (exists protocol,
         dict_get environ (lit "SERVER_PROTOCOL") = Some protocol
         /\ slice_from_5 protocol = Ok (http_version scope)
         /\ forall text, protocol = EStr text -> http_version scope = EStr (skipn 5 text))
  /\ scheme scope = get_default environ "wsgi.url_scheme" (EStr (lit "http"))
  /\ dict_get environ (lit "SERVER_NAME") = Some (fst (server scope))
  /\ dict_get environ (lit "SERVER_PORT") = Some (snd (server scope))
  /\ dict_get environ (lit "REMOTE_ADDR") = Some (client scope).
Proof.
  unfold build_scope_and_body.
  destruct (header_loop str_lower environ []) as [hs|e]; [|discriminate].
  cbn [rbind].
  split_lookups; try discriminate;
    (match goal with
     | |- context [slice_from_5 ?x] => destruct x; cbn [slice_from_5 rbind]
     end; try discriminate);
    (match goal with
     | |- match ?x with EStr _ => _ | _ => _ end = _ -> _ =>
         destruct x; cbn [read rbind]
     end; try discriminate);
    intros H; injection H as <- _ _; cbn;
    repeat split; try reflexivity; eexists; (split; [reflexivity|]);
    (split; [reflexivity|]); intros text H; try discriminate H;
    injection H as <-; reflexivity.
Qed.

(** Keys other than ['wsgi.input'] are bound as before once the stream has
    been read. *)
Lemma dict_get_drain_other (environ : Environ) (key : pystr) :
  str_eqb (lit "wsgi.input") key = false ->
  dict_get (drain_input environ) key = dict_get environ key.
Proof.
  intros Hk. induction environ as [|[k v] environ IH]; [reflexivity|].
  cbn [drain_input dict_get].
  destruct (str_eqb k (lit "wsgi.input")) eqn:E; cbn [dict_get].
  - apply str_eqb_eq in E. subst k. now rewrite Hk.
  - now rewrite IH.
Qed.

Lemma header_loop_drain (environ : Environ) (acc : list (bytes * bytes)) :
  header_loop str_lower (drain_input environ) acc = header_loop str_lower environ acc.
Proof.
  revert acc. induction environ as [|[k v] environ IH]; intros acc; [reflexivity|].
  cbn [drain_input].
  destruct (str_eqb k (lit "wsgi.input")) eqn:E; cbn [header_loop].
  - apply str_eqb_eq in E. subst k. reflexivity.
  - destruct (corrected_name str_lower k); [|apply IH].
    destruct (encode (EStr p)); [|reflexivity].
    destruct (encode v); [|reflexivity].
    cbn [rbind]. apply IH.
Qed.

Lemma drain_input_idempotent (environ : Environ) :
  drain_input (drain_input environ) = drain_input environ.
Proof.
  induction environ as [|[k v] environ IH]; [reflexivity|].
  cbn [drain_input].
  destruct (str_eqb k (lit "wsgi.input")) eqn:E; cbn [drain_input]; rewrite E.
  - now destruct v.
  - now rewrite IH.
Qed.

(** X5: Reading consumes the stream: the body is all that was unread, and
    building again from the environment as the call left it gives the same
    scope with an empty body. *)
Theorem stream_consumed (environ environ' : Environ) (scope : Scope)
    (request_body : pybody) (data : bytes) :
  dict_get environ (lit "wsgi.input") = Some (EStream data) ->
  build_scope_and_body str_lower environ = Ok (scope, request_body, environ') ->
  request_body = Bytes data
  /\ build_scope_and_body str_lower environ' = Ok (scope, Bytes [], environ').
Proof.
  intros Hin Hb.
  destruct (stream_read_whole str_lower _ _ _ _ _ Hin Hb) as [-> ->].
  split; [reflexivity|]. revert Hb.
  unfold build_scope_and_body, subscript, get_default.
  rewrite header_loop_drain, drain_input_idempotent.
  rewrite (drain_input_drained environ data Hin), Hin.
  repeat match goal with
         | |- context [dict_get (drain_input ?e) (lit ?k)] =>
             rewrite (dict_get_drain_other e (lit k) eq_refl)
         end.
  destruct (header_loop str_lower environ []) as [hs|e]; [|discriminate].
  cbn [rbind].
  split_lookups; try discriminate;
    (match goal with
     | |- context [slice_from_5 ?x] => destruct x; cbn [slice_from_5 rbind]
     end; try discriminate);
    cbn [read rbind]; intros H; injection H as <-; reflexivity.
Qed.

End BuilderMore.

Lemma not_http_never_runs_witness :
  AsgiToWsgi_call ascii_lower 0 hello_app environ_without_protocol
  = Some {| outcome := Finished (Raise (KeyError (lit "SERVER_PROTOCOL")));
            environ_after := environ_without_protocol;
            ran := None |}
  /\ AsgiToWsgi_call ascii_lower 0 hello_app environ_bytes_protocol
     = Some {| outcome :=
                 Finished (Raise (TypeError
                   (lit "startswith first arg must be bytes or a tuple of bytes, not str")));
               environ_after := environ_bytes_protocol;
               ran := None |}.
Proof.
  split.
  - exact (not_http_never_runs ascii_lower 0 hello_app environ_without_protocol _ eq_refl).
  - exact (not_http_never_runs ascii_lower 0 hello_app environ_bytes_protocol _ eq_refl).
Defined.

Lemma first_missing_key_raised_witness :
  AsgiToWsgi_call ascii_lower 0 hello_app environ_without_path
  = Some {| outcome := Finished (Raise (KeyError (lit "PATH_INFO")));
            environ_after := environ_without_path;
            ran := None |}.
Proof.
  exact (first_missing_key_raised ascii_lower 0 hello_app environ_without_path []
           "PATH_INFO" eq_refl eq_refl eq_refl).
Defined.

Lemma scope_fields_witness :
  exists scope,
    build_scope_and_body ascii_lower environ_tuple_protocol
    = Ok (scope, Bytes (blit "ping"), drain_input environ_tuple_protocol)
    /\ http_version scope = ETuple []
    /\ scheme scope = EStr (lit "http").
Proof.
  eexists. split; [reflexivity|]. split; [reflexivity|].
  exact (proj1 (proj2 (proj2 (proj2 (proj2 (proj2 (proj2
           (scope_fields ascii_lower environ_tuple_protocol _ _ _ eq_refl)))))))).
Defined.

Lemma stream_consumed_witness :
  exists scope,
    build_scope_and_body ascii_lower minimal_environ
    = Ok (scope, Bytes (blit "ping"), drain_input minimal_environ)
    /\ build_scope_and_body ascii_lower (drain_input minimal_environ)
       = Ok (scope, Bytes [], drain_input minimal_environ).
Proof.
  eexists. split; [reflexivity|].
  exact (proj2 (stream_consumed ascii_lower minimal_environ _ _ _ (blit "ping")
                  eq_refl eq_refl)).
Defined.

Ltac euclid := zify; Z.to_euclidean_division_equations; lia.

(** ** The status text *)

Lemma N_of_digits_snoc (ds : pystr) (d : N) :
  N_of_digits (ds ++ [d]) = 10 * N_of_digits ds + (d - 48).
Proof. unfold N_of_digits. now rewrite fold_left_app. Qed.

Lemma str_of_N_aux_spec (fuel : nat) (n : N) (acc : pystr) :
  (0 < fuel)%nat ->
  n < 10 ^ N.of_nat fuel ->
  exists ds,
    str_of_N_aux fuel n acc = ds ++ acc
    /\ N_of_digits ds = n
    /\ Forall (fun d => 48 <= d <= 57) ds.
Proof.
  revert n acc. induction fuel as [|fuel IH]; intros n acc Hf Hn; [lia|].
  cbn [str_of_N_aux]. unfold digit_of.
  assert (Hmod : n mod 10 < 10) by (apply N.mod_lt; discriminate).
  destruct (N.eqb_spec (n / 10) 0) as [Hz|Hnz].
  - exists [48 + n mod 10]. split; [reflexivity|]. split.
    + unfold N_of_digits. cbn [fold_left]. euclid.
    + constructor; [euclid | constructor].
  - rewrite Nat2N.inj_succ, N.pow_succ_r' in Hn.
    assert (Hf' : (0 < fuel)%nat).
    { destruct fuel; [|lia]. cbn in Hn. exfalso. apply Hnz. euclid. }
    assert (Hn' : n / 10 < 10 ^ N.of_nat fuel).
    { apply N.Div0.div_lt_upper_bound. lia. }
    destruct (IH (n / 10) ((48 + n mod 10) :: acc) Hf' Hn') as (ds & Hrun & Hval & Hdig).
    exists (ds ++ [48 + n mod 10]). split; [|split].
    + rewrite Hrun, <- app_assoc. reflexivity.
    + rewrite N_of_digits_snoc, Hval. euclid.
    + apply Forall_app. split; [assumption|]. constructor; [euclid | constructor].
Qed.

Lemma str_of_N_spec (n : N) :
  N_of_digits (str_of_N n) = n /\ Forall (fun d => 48 <= d <= 57) (str_of_N n).
Proof.
  unfold str_of_N.
  destruct (str_of_N_aux_spec (S (N.to_nat (N.log2 n))) n []) as (ds & Hrun & Hval & Hdig).
  - lia.
  - rewrite Nat2N.inj_succ, N2Nat.id.
    destruct (N.eq_dec n 0) as [->|Hnz]; [cbn; lia|].
    apply N.lt_le_trans with (2 ^ N.succ (N.log2 n)).
    + apply N.log2_spec. lia.
    + apply N.pow_le_mono_l. lia.
  - rewrite Hrun, app_nil_r. now split.
Qed.

(** The numeral [str_of_int] builds is made of digits, after a minus sign
    for a negative number, and reads back as the number. *)
Lemma status_text_reads_back (code : Z) :
  int_of_str (str_of_int code) = code
  /\ Forall (fun d => 48 <= d <= 57)
            (match code with Zneg _ => tl (str_of_int code) | _ => str_of_int code end).
Proof.
  assert (Hpos : forall n, int_of_str (str_of_N n) = Z.of_N n).
  { intros n. destruct (str_of_N_spec n) as [Hval Hdig].
    set (s := str_of_N n) in *. clearbody s. subst n.
    destruct s as [|d ds]; [reflexivity|].
    assert (Hd : 48 <= d) by (inversion Hdig; lia).
    unfold int_of_str.
    destruct d as [|p]; [reflexivity|].
    repeat (destruct p as [p|p|]; try reflexivity; try lia). }
  destruct code as [|p|p]; cbn [str_of_int tl].
  - split; [apply (Hpos 0) | apply str_of_N_spec].
  - split; [apply (Hpos (Npos p)) | apply str_of_N_spec].
  - split; [|apply str_of_N_spec].
    unfold int_of_str. destruct (str_of_N_spec (Npos p)) as [Hval _].
    unfold hyphen. rewrite Hval. reflexivity.
Qed.

(** ** More on [send] *)

Lemma decode_loop_acc (hdrs : list (bytes * bytes)) (acc : list (pystr * pystr)) :
  decode_loop hdrs acc = rbind (decode_loop hdrs []) (fun cs => Ok (acc ++ cs)).
Proof.
  revert acc. induction hdrs as [|[k v] hdrs IH]; intros acc; cbn [decode_loop rbind].
  - now rewrite app_nil_r.
  - destruct (utf8_decode k) as [k'|]; [|reflexivity].
    destruct (utf8_decode v) as [v'|]; [|reflexivity].
    rewrite IH, (IH ([] ++ [(k', v')])).
    destruct (decode_loop hdrs []) as [cs|e]; [|reflexivity].
    cbn [rbind]. now rewrite <- app_assoc.
Qed.


(** The decoding loop returns the text pairs of the headers, one per header
    and in their order, exactly when every name and value is valid UTF-8. *)
Lemma decode_loop_spec (hdrs : list (bytes * bytes)) (cs : list (pystr * pystr)) :
  decode_loop hdrs [] = Ok cs <-> Forall2 header_text hdrs cs.
Proof.
  revert cs. induction hdrs as [|[k v] hdrs IH]; intros cs; cbn [decode_loop].
  - split.
    + intros [= <-]. constructor.
    + intros H. inversion H. reflexivity.
  - split.
    + destruct (utf8_decode k) as [k'|] eqn:Ek; [|discriminate].
      destruct (utf8_decode v) as [v'|] eqn:Ev; [|discriminate].
      rewrite decode_loop_acc.
      destruct (decode_loop hdrs []) as [cs'|] eqn:Ed; [|discriminate].
      intros [= <-]. constructor; [now split | now apply IH].
    + intros H. inversion H as [|raw [k' v'] l l' [Hk Hv] Hrest]; subst.
      cbn [fst snd] in Hk, Hv. rewrite Hk, Hv, decode_loop_acc.
      apply IH in Hrest. now rewrite Hrest.
Qed.



(** X7: In state REQUEST the only message [send] accepts is a [response.start]
    that has a status and whose header names and values are all valid
    UTF-8.  When it is accepted the response callback has been called with
    the status as text (a numeral that reads back as the status), one text
    pair per header in the order of the message, and [None]; the state is
    RESPONSE; the buffer and the queue are as they were. *)
Theorem start_headers_decoded (self self' : Instance) (message : Message) :
  state self = REQUEST ->
  send self message = (self', Ok tt) ->
  exists code texts,
    msg_type message = Some response_start
    /\ msg_status message = Some code
    /\ Forall2 header_text (get_or (msg_headers message) []) texts
    /\ response_calls self'
       = response_calls self ++ [mkResponseCall (str_of_int code) texts None]
    /\ int_of_str (str_of_int code) = code
    /\ state self' = RESPONSE
    /\ body self' = body self
    /\ app_queue self' = app_queue self.
Proof.
  intros Hs. unfold send.
  destruct (msg_type message) as [kind|]; [|discriminate].
  rewrite Hs. cbn [HttpState_eqb andb].
  destruct (str_eqb kind (lit "http.response.start")) eqn:Ek; [|discriminate].
  apply str_eqb_eq in Ek. subst kind.
  destruct (msg_status message) as [code|]; [|discriminate].
  destruct (decode_loop _ _) as [texts|e] eqn:Ed; [|discriminate].
  intros H. injection H as <-. exists code, texts.
  apply decode_loop_spec in Ed.
  repeat split; try assumption. apply status_text_reads_back.
Qed.

Lemma start_headers_decoded_witness :
  exists code texts,
    msg_type start_200 = Some response_start
    /\ msg_status start_200 = Some code
    /\ Forall2 header_text (get_or (msg_headers start_200) []) texts
    /\ response_calls started_instance
       = response_calls (start_instance new_instance (Bytes []))
         ++ [mkResponseCall (str_of_int code) texts None]
    /\ int_of_str (str_of_int code) = code
    /\ state started_instance = RESPONSE
    /\ body started_instance = body (start_instance new_instance (Bytes []))
    /\ app_queue started_instance = app_queue (start_instance new_instance (Bytes [])).
Proof.
  exact (start_headers_decoded (start_instance new_instance (Bytes [])) started_instance
           start_200 eq_refl eq_refl).
Defined.

(** ** More on runs *)

Lemma send_keeps_response_inv (self : Instance) (m : Message) :
  response_inv self -> response_inv (fst (send self m)).
Proof.
  unfold response_inv, send.
  destruct (msg_type m) as [kind|]; [|trivial].
  destruct (state self) eqn:Hs; cbn [HttpState_eqb andb].
  - intros [Hc Hb].
    destruct (str_eqb kind _); cbn [fst]; [|now rewrite Hs].
    destruct (msg_status m); cbn [fst]; [|now rewrite Hs].
    destruct (decode_loop _ _); cbn [fst]; [|now rewrite Hs].
    cbn. rewrite Hc. eexists. eexists. reflexivity.
  - intros Hc.
    destruct (str_eqb kind _); cbn [fst]; [|now rewrite Hs].
    destruct (negb _); cbn; [assumption|now rewrite Hs].
  - intros Hc. cbn [fst]. now rewrite Hs.
Qed.

Lemma step_keeps_response_inv (self self' : Instance) (t t' : Coroutine) :
  response_inv self -> step self t = Next self' t' -> response_inv self'.
Proof.
  intros Hinv. unfold step. destruct (observe t) as [r|t0|X e k]; [discriminate| |].
  - now intros [= <- _].
  - destruct e as [|message].
    + unfold receive, queue_get.
      destruct (app_queue self) as [|m rest]; [discriminate|].
      intros [= <- _]. exact Hinv.
    + pose proof (send_keeps_response_inv self message Hinv) as H.
      destruct (send self message) as [s r]. now intros [= <- _].
Qed.

Lemma reachable_response_inv (app : AsgiApp) (scope : Scope) (request_body : pybody)
    (self : Instance) (t : Coroutine) :
  reachable app scope request_body self t -> response_inv self.
Proof.
  induction 1 as [|self t self' t' _ IH Hstep].
  - split; reflexivity.
  - now apply step_keeps_response_inv with self t t'.
Qed.

Lemma send_keeps_calls (self : Instance) (message : Message) :
  state self <> REQUEST ->
  response_calls (fst (send self message)) = response_calls self
  /\ state (fst (send self message)) <> REQUEST.
Proof.
  intros Hne. unfold send. destruct (msg_type message) as [kind|]; [|now split].
  destruct (state self) eqn:Hs; cbn [HttpState_eqb andb].
  - contradiction.
  - destruct (str_eqb kind _); [|cbn [fst]; rewrite Hs; now split].
    destruct (negb _); cbn; rewrite ?Hs; split; (reflexivity || discriminate).
  - cbn [fst]. rewrite Hs. now split.
Qed.

Lemma step_keeps_calls (self self' : Instance) (t t' : Coroutine) :
  step self t = Next self' t' ->
  state self <> REQUEST ->
  response_calls self' = response_calls self /\ state self' <> REQUEST.
Proof.
  unfold step. destruct (observe t) as [r|t0|X e k]; [intros H; discriminate H| |].
  - intros [= <- _]. auto.
  - destruct e as [|message].
    + unfold receive, queue_get.
      destruct (app_queue self) as [|m rest]; [intros H; discriminate H|].
      intros [= <- _]. auto.
    + intros Hstep Hne. pose proof (send_keeps_calls self message Hne) as H.
      destruct (send self message) as [s r]. injection Hstep as <- _. exact H.
Qed.

(** X8: The response callback is only ever called in state REQUEST: at every
    point of every run, once the state has left REQUEST no step of the callee
    calls it again, and the state never goes back to REQUEST; and as long as
    the state is REQUEST the buffer is empty. *)
Theorem response_only_in_request (app : AsgiApp) (scope : Scope)
    (request_body : pybody) (self : Instance) (t : Coroutine) :
  reachable app scope request_body self t ->
  (state self = REQUEST -> body self = [])
  /\ (forall self' t',
         step self t = Next self' t' ->
         state self <> REQUEST ->
         response_calls self' = response_calls self /\ state self' <> REQUEST).
Proof.
  intros Hr. split.
  - intros Hs. pose proof (reachable_response_inv _ _ _ _ _ Hr) as Hinv.
    unfold response_inv in Hinv. rewrite Hs in Hinv. apply Hinv.
  - intros self' t'. apply step_keeps_calls.
Qed.

Lemma response_only_in_request_witness :
  response_calls drained_instance = response_calls answered_instance
  /\ state drained_instance <> REQUEST.
Proof.
  refine (proj2 (response_only_in_request lingering_app sample_scope (Bytes [])
                   answered_instance receive_twice
                   (steps_reachable _ _ _ 3 _ _ _ _ (reach_start _ _ _)
                                    lingering_app_answered))
                drained_instance receive_once eq_refl _).
  discriminate.
Defined.

Lemma step_frozen (self self' : Instance) (t t' : Coroutine) :
  step self t = Next self' t' ->
  state self = COMPLETE ->
  state self' = COMPLETE /\ body self' = body self
  /\ response_calls self' = response_calls self
  /\ put_history self' = put_history self.
Proof.
  unfold step. destruct (observe t) as [r|t0|X e k]; [discriminate| |].
  - intros [= <- _]. auto.
  - destruct e as [|message].
    + unfold receive, queue_get.
      destruct (app_queue self) as [|m rest]; [discriminate|].
      intros [= <- _]. auto.
    + destruct (send self message) as [s r] eqn:E. intros [= <- _] Hs.
      pose proof (send_cases self message) as Hc. rewrite E in Hc.
      destruct r as [[]|e]; [|subst s; auto].
      unfold table_next in Hc. rewrite Hs in Hc.
      destruct (msg_type message); discriminate.
Qed.

(** X9: Once the response is complete nothing the callee does changes it: after
    any number of further steps the state is still COMPLETE, and the buffer,
    the calls made to the response callback and the messages put on the queue
    are what they were. *)
Theorem complete_is_frozen (n : nat) (self self' : Instance) (t t' : Coroutine) :
  state self = COMPLETE ->
  steps n self t = Some (self', t') ->
  state self' = COMPLETE /\ body self' = body self
  /\ response_calls self' = response_calls self
  /\ put_history self' = put_history self.
Proof.
  revert self t. induction n as [|n IH]; intros self t Hs H; cbn [steps] in H.
  - injection H as <- _. auto.
  - destruct (step self t) as [s1 t1| |] eqn:E; try discriminate.
    destruct (step_frozen self s1 t t1 E Hs) as (Hs1 & Hb & Hc & Hp).
    destruct (IH s1 t1 Hs1 H) as (Hs' & Hb' & Hc' & Hp').
    repeat split; congruence.
Qed.

Lemma complete_is_frozen_witness :
  body drained_instance = body answered_instance
  /\ response_calls drained_instance = response_calls answered_instance.
Proof.
  destruct (complete_is_frozen 1 answered_instance drained_instance receive_twice
              receive_once eq_refl eq_refl) as (_ & Hb & Hc & _).
  split; assumption.
Defined.

(** X10: Before the body is complete the queue only ever holds the request
    message: the first [receive()] of a run gets it, with the whole request
    body and [more_body=False], and a [receive()] made after that and before
    completion finds the queue empty. *)
Theorem receive_before_completion (app : AsgiApp) (scope : Scope)
    (request_body : pybody) (self : Instance) (t : Coroutine) :
  reachable app scope request_body self t ->
  HttpState_eqb (state self) COMPLETE = false ->
  (got_history self = [] ->
   exists self', receive self = Some (self', HttpRequest request_body false))
  /\ (got_history self <> [] -> receive self = None).
Proof.
  intros Hr Hs. destruct (reachable_channel_inv _ _ _ _ _ Hr) as [Hput Hfifo].
  rewrite Hs in Hput. rewrite Hfifo in Hput. unfold receive, queue_get. split.
  - intros Hg. rewrite Hg in Hput. cbn [List.app] in Hput. rewrite Hput.
    eexists. reflexivity.
  - intros Hg.
    assert (Hq : app_queue self = []).
    { destruct (got_history self) as [|g gs]; [contradiction|].
      cbn [List.app] in Hput. injection Hput as _ Hnil.
      now apply app_eq_nil in Hnil. }
    now rewrite Hq.
Qed.

Lemma impatient_app_waiting :
  steps 1 (start_instance new_instance (Bytes [])) (impatient_app sample_scope)
  = Some ({| body := []; state := REQUEST; app_queue := [];
             response_calls := [];
             put_history := [HttpRequest (Bytes []) false];
             got_history := [HttpRequest (Bytes []) false] |},
          await_receive (fun _ => hello_app sample_scope)).
Proof. reflexivity. Qed.

Lemma receive_before_completion_witness :
  receive {| body := []; state := REQUEST; app_queue := [];
             response_calls := [];
             put_history := [HttpRequest (Bytes []) false];
             got_history := [HttpRequest (Bytes []) false] |} = None.
Proof.
  refine (proj2 (receive_before_completion impatient_app sample_scope (Bytes []) _ _
                   (steps_reachable _ _ _ 1 _ _ _ _ (reach_start _ _ _)
                                    impatient_app_waiting)
                   eq_refl) _).
  discriminate.
Defined.

(** X11: In a whole run at most two [receive()] calls are answered; after two,
    every [receive()] finds the queue empty. *)
Theorem at_most_two_received (app : AsgiApp) (scope : Scope) (request_body : pybody)
    (self : Instance) (t : Coroutine) :
  reachable app scope request_body self t ->
  (length (got_history self) <= 2)%nat
  /\ (length (got_history self) = 2%nat -> receive self = None).
Proof.
  intros Hr. destruct (reachable_channel_inv _ _ _ _ _ Hr) as [Hput Hfifo].
  assert (Hlen : (length (got_history self) + length (app_queue self) <= 2)%nat).
  { rewrite <- length_app, <- Hfifo, Hput.
    destruct (HttpState_eqb _ _); cbn; lia. }
  split; [lia|].
  intros H2. unfold receive, queue_get.
  destruct (app_queue self); [reflexivity | cbn in Hlen; lia].
Qed.

Lemma at_most_two_received_witness :
  (length (got_history drained_instance) <= 2)%nat
  /\ receive drained_instance = None.
Proof.
  destruct (at_most_two_received lingering_app sample_scope (Bytes [])
              drained_instance receive_once
              (steps_reachable _ _ _ 4 _ _ _ _ (reach_start _ _ _) lingering_app_drained))
    as [H1 H2].
  split; [exact H1 | exact (H2 eq_refl)].
Defined.

(** ** More on the adapter, end to end *)

Section AdapterMore.

Variable str_lower : pystr -> pystr.

(** X12: The adapter does not require a response: when the callee returns
    without having sent or received anything, the adapter returns the one
    empty chunk [(b"",)]; the response callback has not been called, the
    state is still REQUEST and the request message is still in the queue. *)
Theorem silent_callee_empty_chunk (fuel : nat) (app : AsgiApp)
    (environ environ' : Environ) (scope : Scope) (request_body : pybody) :
  is_http environ = true ->
  build_scope_and_body str_lower environ = Ok (scope, request_body, environ') ->
  observe (app scope) = RetF (Ok tt) ->
  (1 <= fuel)%nat ->
  AsgiToWsgi_call str_lower fuel app environ
  = Some {| outcome := Finished (Ok [[]]);
            environ_after := environ';
            ran := Some {| body := [];
                           state := REQUEST;
                           app_queue := [HttpRequest request_body false];
                           response_calls := [];
                           put_history := [HttpRequest request_body false];
                           got_history := [] |} |}.
Proof.
  intros Hhttp Hbuild Hret Hfuel.
  rewrite (call_unfold str_lower fuel app environ Hhttp), Hbuild.
  unfold run_asgi_app. destruct fuel as [|fuel]; [lia|].
  cbn [run_loop]. unfold step. rewrite Hret. reflexivity.
Qed.

(** X13: A message that is illegal in state REQUEST, sent first by a callee that
    lets the exception propagate, makes the adapter raise the [TypeError] of
    [send]; the response callback has not been called and nothing is in the
    buffer. *)
Theorem violation_propagates (fuel : nat) (environ environ' : Environ)
    (scope : Scope) (request_body : pybody) (message : Message) (kind : pystr)
    (k : Coroutine) :
  is_http environ = true ->
  build_scope_and_body str_lower environ = Ok (scope, request_body, environ') ->
  msg_type message = Some kind ->
  legal_pair REQUEST kind = false ->
  (2 <= fuel)%nat ->
  AsgiToWsgi_call str_lower fuel (fun _ => await_send message k) environ
  = Some {| outcome := Finished (Raise (TypeError (unexpected_event REQUEST kind)));
            environ_after := environ';
            ran := Some (start_instance new_instance request_body) |}.
Proof.
  intros Hhttp Hbuild Hk Hl Hfuel.
  rewrite (call_unfold str_lower fuel _ environ Hhttp), Hbuild.
  unfold run_asgi_app.
  set (fresh := start_instance new_instance request_body).
  assert (H2 : run_loop 2 fresh (await_send message k)
               = Some (fresh, Finished (Raise (TypeError (unexpected_event REQUEST kind))))).
  { cbn [run_loop]. unfold step at 1. cbn [observe _observe await_send].
    rewrite (send_illegal fresh message kind Hk Hl). reflexivity. }
  now rewrite (run_loop_more_fuel 2 fuel _ _ _ H2 Hfuel).
Qed.

End AdapterMore.

Lemma silent_callee_empty_chunk_witness :
  AsgiToWsgi_call ascii_lower 1 silent_app environ_without_stream
  = Some {| outcome := Finished (Ok [[]]);
            environ_after := environ_without_stream;
            ran := Some {| body := [];
                           state := REQUEST;
                           app_queue := [HttpRequest (Text []) false];
                           response_calls := [];
                           put_history := [HttpRequest (Text []) false];
                           got_history := [] |} |}.
Proof.
  exact (silent_callee_empty_chunk ascii_lower 1 silent_app environ_without_stream
           environ_without_stream sample_scope (Text [])
           eq_refl eq_refl eq_refl (le_n 1)).
Defined.

Lemma violation_propagates_witness :
  AsgiToWsgi_call ascii_lower 2 (fun _ => await_send body_hello (Ret (Ok tt)))
                  environ_without_stream
  = Some {| outcome :=
              Finished (Raise (TypeError
                (lit "HttpState.REQUEST: Unexpected 'http.response.body' event received.")));
            environ_after := environ_without_stream;
            ran := Some (start_instance new_instance (Text [])) |}.
Proof.
  exact (violation_propagates ascii_lower 2 environ_without_stream _ _ _ body_hello
           response_body (Ret (Ok tt)) eq_refl eq_refl eq_refl eq_refl (le_n 2)).
Defined.

(** ** UTF-8 round trip *)

Lemma check_block_sound (check : N -> bool) (d : nat) (base c : N) :
  check_block check d base = true ->
  base <= c < base + 2 ^ N.of_nat d ->
  check c = true.
Proof.
  revert base. induction d as [|d IH]; intros base H Hc; cbn [check_block] in H.
  - cbn in Hc. replace c with base by lia. exact H.
  - apply andb_true_iff in H as [H1 H2].
    rewrite Nat2N.inj_succ, N.pow_succ_r' in Hc.
    destruct (N.lt_ge_cases c (base + 2 ^ N.of_nat d)) as [Hlt|Hge].
    + apply (IH base); [assumption | lia].
    + apply (IH (base + 2 ^ N.of_nat d)); [assumption | lia].
Qed.


Lemma lor_shiftl_small (a x : N) (n : N) :
  x < 2 ^ n -> N.lor (N.shiftl a n) x = a * 2 ^ n + x.
Proof.
  intros Hx. rewrite N.shiftl_mul_pow2.
  assert (Hland : N.land (a * 2 ^ n) x = 0).
  { apply N.bits_inj. intros m. rewrite N.land_spec, N.bits_0.
    destruct (N.lt_ge_cases m n) as [Hlt|Hge].
    - now rewrite N.mul_pow2_bits_low.
    - destruct (N.eq_dec x 0) as [->|Hnz]; [now rewrite N.bits_0, andb_false_r|].
      rewrite (N.bits_above_log2 x m), andb_false_r; [reflexivity|].
      apply N.lt_le_trans with n; [|assumption].
      apply N.log2_lt_pow2; lia. }
  rewrite <- (N.lxor_lor _ _ Hland). symmetry. now apply N.add_nocarry_lxor.
Qed.

Lemma to_N_byte_of (n : N) : n < 256 -> Byte.to_N (byte_of n) = n.
Proof.
  intros H.
  assert (Hall : check_block (fun m => Byte.to_N (byte_of m) =? m) 8 0 = true)
    by (vm_compute; reflexivity).
  apply N.eqb_eq.
  apply (check_block_sound (fun m => Byte.to_N (byte_of m) =? m) 8 0 n Hall).
  cbn. lia.
Qed.

Lemma land_low (n k : N) : N.land n (N.ones k) = n mod 2 ^ k.
Proof. apply N.land_ones. Qed.

Lemma low6_mod (n : N) : low6 n = n mod 64.
Proof. unfold low6. exact (land_low n 6). Qed.

Lemma land_63 (n : N) : N.land n 0x3F = n mod 64.
Proof. exact (land_low n 6). Qed.

Lemma land_31 (n : N) : N.land n 0x1F = n mod 32.
Proof. exact (land_low n 5). Qed.

Lemma land_15 (n : N) : N.land n 0x0F = n mod 16.
Proof. exact (land_low n 4). Qed.

Lemma land_7 (n : N) : N.land n 0x07 = n mod 8.
Proof. exact (land_low n 3). Qed.

(** A lead byte or continuation byte: a tag above [k] payload bits. *)
Lemma tagged_byte (tag x k : N) :
  x < 2 ^ k -> tag * 2 ^ k + x < 256 ->
  Byte.to_N (byte_of (N.lor (tag * 2 ^ k) x)) = tag * 2 ^ k + x.
Proof.
  intros Hx Hb. pose proof (lor_shiftl_small tag x k Hx) as E.
  rewrite N.shiftl_mul_pow2 in E. rewrite E.
  now apply to_N_byte_of.
Qed.

Lemma cont_byte (x : N) :
  Byte.to_N (byte_of (N.lor 0x80 (N.land x 0x3F))) = 128 + x mod 64.
Proof.
  rewrite land_63.
  assert (H : x mod 64 < 2 ^ 6) by (apply N.mod_lt; discriminate).
  change 0x80 with (2 * 2 ^ 6).
  rewrite (tagged_byte 2 (x mod 64) 6 H); [reflexivity|].
  change (2 ^ 6) with 64 in *. lia.
Qed.

Ltac tests :=
  repeat match goal with
         | |- context [N.ltb ?a ?b] => destruct (N.ltb_spec a b); try euclid
         | |- context [N.leb ?a ?b] => destruct (N.leb_spec a b); try euclid
         end; cbn [andb negb].

Lemma decode_1 (b0 : byte) (rest : bytes) :
  Byte.to_N b0 < 0x80 ->
  utf8_decode (b0 :: rest) = option_map (cons (Byte.to_N b0)) (utf8_decode rest).
Proof. intros H. cbn [utf8_decode]. tests. reflexivity. Qed.

Lemma decode_2 (b0 b1 : byte) (rest : bytes) :
  0xC2 <= Byte.to_N b0 <= 0xDF ->
  0x80 <= Byte.to_N b1 <= 0xBF ->
  utf8_decode (b0 :: b1 :: rest)
  = option_map (cons (Byte.to_N b0 mod 32 * 64 + Byte.to_N b1 mod 64))
               (utf8_decode rest).
Proof.
  intros H0 H1. remember (b1 :: rest) as r0 eqn:Er.
  cbn [utf8_decode]. tests. subst r0. cbv beta iota. unfold is_cont.
  rewrite low6_mod, land_31.
  rewrite (lor_shiftl_small _ _ 6) by (apply N.mod_lt; discriminate).
  tests; reflexivity.
Qed.

Lemma decode_3 (b0 b1 b2 : byte) (rest : bytes) :
  let c := Byte.to_N b0 mod 16 * 4096 + Byte.to_N b1 mod 64 * 64 + Byte.to_N b2 mod 64 in
  0xE0 <= Byte.to_N b0 <= 0xEF ->
  0x80 <= Byte.to_N b1 <= 0xBF ->
  0x80 <= Byte.to_N b2 <= 0xBF ->
  0x800 <= c -> (c < 0xD800 \/ 0xDFFF < c) ->
  utf8_decode (b0 :: b1 :: b2 :: rest) = option_map (cons c) (utf8_decode rest).
Proof.
  intros c H0 H1 H2 Hlow Hsur. subst c. remember (b1 :: b2 :: rest) as r0 eqn:Er.
  cbn [utf8_decode]. tests. subst r0. cbv beta iota. unfold is_cont, is_surrogate.
  rewrite !low6_mod, land_15.
  rewrite (lor_shiftl_small _ _ 6) by (apply N.mod_lt; discriminate).
  rewrite (lor_shiftl_small _ _ 12) by euclid.
  change (2 ^ 12) with 4096 in *. change (2 ^ 6) with 64 in *.
  change (2 ^ 4) with 16 in *.
  rewrite N.add_assoc in *.
  tests; reflexivity.
Qed.

Lemma decode_4 (b0 b1 b2 b3 : byte) (rest : bytes) :
  let c := Byte.to_N b0 mod 8 * 262144 + Byte.to_N b1 mod 64 * 4096
           + Byte.to_N b2 mod 64 * 64 + Byte.to_N b3 mod 64 in
  0xF0 <= Byte.to_N b0 <= 0xF4 ->
  0x80 <= Byte.to_N b1 <= 0xBF ->
  0x80 <= Byte.to_N b2 <= 0xBF ->
  0x80 <= Byte.to_N b3 <= 0xBF ->
  0x10000 <= c < 0x110000 ->
  utf8_decode (b0 :: b1 :: b2 :: b3 :: rest) = option_map (cons c) (utf8_decode rest).
Proof.
  intros c H0 H1 H2 H3 Hc. subst c. remember (b1 :: b2 :: b3 :: rest) as r0 eqn:Er.
  cbn [utf8_decode]. tests. subst r0. cbv beta iota. unfold is_cont.
  rewrite !low6_mod, land_7.
  rewrite (lor_shiftl_small _ _ 6) by (apply N.mod_lt; discriminate).
  rewrite (lor_shiftl_small _ _ 12) by euclid.
  rewrite (lor_shiftl_small _ _ 18) by euclid.
  change (2 ^ 18) with 262144 in *.
  change (2 ^ 12) with 4096 in *. change (2 ^ 6) with 64 in *.
  change (2 ^ 3) with 8 in *.
  rewrite !N.add_assoc in *.
  tests; reflexivity.
Qed.

Lemma shiftr_div (c k : N) : N.shiftr c k = c / 2 ^ k.
Proof. apply N.shiftr_div_pow2. Qed.

Lemma utf8_decode_encoded_cp_aux (c : N) (rest : bytes) :
  match utf8_encode_cp c with
  | Some bs => utf8_decode (bs ++ rest) = option_map (cons c) (utf8_decode rest)
  | None => True
  end.
Proof.
  unfold utf8_encode_cp, is_surrogate.
  destruct (N.ltb_spec c 0x80) as [H1|H1].
  { cbn [app]. rewrite decode_1; rewrite to_N_byte_of; (reflexivity || lia). }
  destruct (N.ltb_spec c 0x800) as [H2|H2].
  { cbn [app]. rewrite !shiftr_div.
    change 0xC0 with (3 * 2 ^ 6).
    assert (Hb0 : Byte.to_N (byte_of (N.lor (3 * 2 ^ 6) (c / 2 ^ 6))) = 192 + c / 64).
    { rewrite tagged_byte; change (2 ^ 6) with 64; try reflexivity; euclid. }
    rewrite decode_2; rewrite ?Hb0, ?cont_byte; try euclid.
    f_equal. f_equal. euclid. }
  destruct (N.ltb_spec c 0x10000) as [H3|H3].
  { destruct (N.leb_spec 0xD800 c) as [H4|H4];
      [destruct (N.leb_spec c 0xDFFF) as [H5|H5]|]; cbn [andb]; try exact I;
      cbn [app]; rewrite !shiftr_div;
      change 0xE0 with (14 * 2 ^ 4);
      assert (Hb0 : Byte.to_N (byte_of (N.lor (14 * 2 ^ 4) (c / 2 ^ 12))) = 224 + c / 4096)
        by (rewrite tagged_byte; change (2 ^ 4) with 16; change (2 ^ 12) with 4096;
            try reflexivity; euclid);
      change (2 ^ 6) with 64;
      rewrite decode_3; rewrite ?Hb0, ?cont_byte; try euclid;
      f_equal; f_equal; euclid. }
  destruct (N.ltb_spec c 0x110000) as [H4|H4]; [|exact I].
  cbn [app]. rewrite !shiftr_div.
  change 0xF0 with (30 * 2 ^ 3).
  assert (Hb0 : Byte.to_N (byte_of (N.lor (30 * 2 ^ 3) (c / 2 ^ 18))) = 240 + c / 262144).
  { rewrite tagged_byte; change (2 ^ 3) with 8; change (2 ^ 18) with 262144;
      try reflexivity; euclid. }
  change (2 ^ 6) with 64. change (2 ^ 12) with 4096.
  rewrite decode_4; rewrite ?Hb0, ?cont_byte; try euclid.
  f_equal. f_equal. euclid.
Qed.

(** Decoding the encoding of a code point, whatever follows. *)
Lemma utf8_decode_encoded_cp (c : N) (bs rest : bytes) :
  utf8_encode_cp c = Some bs ->
  utf8_decode (bs ++ rest) = option_map (cons c) (utf8_decode rest).
Proof.
  intros H. pose proof (utf8_decode_encoded_cp_aux c rest) as Haux.
  now rewrite H in Haux.
Qed.

Lemma utf8_decode_encode (s : pystr) (b : bytes) :
  utf8_encode s = Some b -> utf8_decode b = Some s.
Proof.
  revert b. induction s as [|c s IH]; intros b; cbn [utf8_encode].
  - intros H. injection H as <-. reflexivity.
  - destruct (utf8_encode_cp c) as [bc|] eqn:Ec; [|discriminate].
    destruct (utf8_encode s) as [bs|]; [|discriminate].
    intros H. injection H as <-. rewrite (utf8_decode_encoded_cp c bc bs Ec).
    now rewrite (IH bs eq_refl).
Qed.

(** X14: Encoding and decoding are inverse: the bytes [s.encode('utf-8')]
    returns decode to [s]. *)
Theorem utf8_roundtrip (s : pystr) (b : bytes) :
  utf8_encode s = Some b -> utf8_decode b = Some s.
Proof. apply utf8_decode_encode. Qed.

Lemma utf8_roundtrip_witness :
  utf8_decode [xe4; xb8; xad; x41; xf0; x9f; x98; x80] = Some [0x4E2D; 0x41; 0x1F600].
Proof.
  exact (utf8_roundtrip [0x4E2D; 0x41; 0x1F600] [xe4; xb8; xad; x41; xf0; x9f; x98; x80]
           eq_refl).
Defined.

(** ** Request headers, echoed *)

Section Echo.

Variable str_lower : pystr -> pystr.

Lemma header_of_text (entry : pystr * envval) (raw : bytes * bytes) :
  header_of str_lower entry raw ->
  exists text, header_text raw text /\ entry_text str_lower entry text.
Proof.
  intros H. destruct H as [suffix name text n v Hh Hn Hv | text v Hv | text v Hv].
  - exists (name, text).
    split; split; cbn [fst snd]; try now apply utf8_decode_encode.
    + unfold corrected_name. rewrite startswith_app.
      now rewrite (hyphenated_replace_char _ _ Hh).
    + reflexivity.
  - exists (lit "content-length", text).
    split; split; cbn [fst snd]; try reflexivity. now apply utf8_decode_encode.
  - exists (lit "content-type", text).
    split; split; cbn [fst snd]; try reflexivity. now apply utf8_decode_encode.
Qed.

Lemma headers_of_text (entries : Environ) (raws : list (bytes * bytes)) :
  Forall2 (header_of str_lower) entries raws ->
  exists texts, Forall2 header_text raws texts /\ Forall2 (entry_text str_lower) entries texts.
Proof.
  induction 1 as [|entry raw entries raws H _ IH].
  - exists []. split; constructor.
  - destruct IH as (texts & Ht & He).
    destruct (header_of_text entry raw H) as (text & Ht1 & He1).
    exists (text :: texts). split; constructor; assumption.
Qed.

(** A corrected header name has no underscore in it. *)
Lemma corrected_name_no_underscore (name cname : pystr) :
  corrected_name str_lower name = Some cname -> ~ In underscore cname.
Proof.
  unfold corrected_name.
  destruct (startswith name (lit "HTTP_")).
  - intros [= <-]. unfold replace_char. rewrite in_map_iff.
    intros (c & Hc & _). destruct (N.eqb_spec c underscore); [discriminate Hc | congruence].
  - destruct (str_eqb name (lit "CONTENT_LENGTH")).
    + intros [= <-] Hin. cbn in Hin. unfold underscore in Hin.
      repeat (destruct Hin as [Hin|Hin]; [discriminate Hin|]). exact Hin.
    + destruct (str_eqb name (lit "CONTENT_TYPE")); [|discriminate].
      intros [= <-] Hin. cbn in Hin. unfold underscore in Hin.
      repeat (destruct Hin as [Hin|Hin]; [discriminate Hin|]). exact Hin.
Qed.


(** X16: No header name of the scope, decoded, contains an underscore. *)
Theorem header_names_without_underscore (environ environ' : Environ) (scope : Scope)
    (request_body : pybody) :
  build_scope_and_body str_lower environ = Ok (scope, request_body, environ') ->
  exists texts,
    decode_loop (headers scope) [] = Ok texts
    /\ Forall (fun text => ~ In underscore (fst text)) texts.
Proof.
  intros Hb.
  pose proof (scope_headers_sound str_lower _ _ _ _ Hb) as Hh.
  destruct (headers_of_text _ _ Hh) as (texts & Ht & He).
  exists texts. split; [now apply decode_loop_spec|].
  clear Ht Hh. induction He as [|entry text entries texts [Hc _] _ IH]; constructor.
  - now apply corrected_name_no_underscore with (fst entry).
  - exact IH.
Qed.

End Echo.


Lemma header_names_without_underscore_witness :
  exists texts,
    decode_loop [ (blit "x-foo", blit "Bar_Baz");
                  (blit "content-type", blit "text/plain");
                  (blit "content-length", blit "4") ] [] = Ok texts
    /\ Forall (fun text => ~ In underscore (fst text)) texts.
Proof.
  refine (header_names_without_underscore ascii_lower environ_with_headers _
            (mkScope _ _ _ _ _ _ _ _ _ _) _ eq_refl).
Defined.

(** ** Chunked responses, a sample *)

Lemma chunked_response_sample :
  option_map outcome
    (AsgiToWsgi_call ascii_lower 5 (chunked_app [chunk "he"; chunk "ll"] body_hello)
                     minimal_environ)
  = Some (Finished (Ok [blit "hellhello"])).
Proof.
  exact (chunked_response_end_to_end ascii_lower minimal_environ _ _ _
           [chunk "he"; chunk "ll"] body_hello 5 eq_refl eq_refl eq_refl eq_refl (le_n 5)).
Defined.

(** ** Failures of the header loop, and of the callee *)

Section FailuresMore.

Variable str_lower : pystr -> pystr.




End FailuresMore.



(** ** UTF-8: decoding is canonical *)

Lemma byte_of_to_N (b : byte) : byte_of (Byte.to_N b) = b.
Proof. destruct b; reflexivity. Qed.

Lemma to_N_bound (b : byte) : Byte.to_N b < 256.
Proof. destruct b; reflexivity. Qed.

Lemma lor_tag (tag x k : N) : x < 2 ^ k -> N.lor (tag * 2 ^ k) x = tag * 2 ^ k + x.
Proof.
  intros Hx. pose proof (lor_shiftl_small tag x k Hx) as E.
  now rewrite N.shiftl_mul_pow2 in E.
Qed.

Lemma cont_value (x n1 : N) :
  128 <= n1 <= 191 -> x mod 64 = n1 mod 64 -> N.lor 0x80 (N.land x 0x3F) = n1.
Proof.
  intros H1 Hx. rewrite land_63. change 0x80 with (2 * 2 ^ 6).
  rewrite lor_tag by (apply N.mod_lt; discriminate).
  change (2 ^ 6) with 64. euclid.
Qed.

Lemma encode_1 (b0 : byte) :
  Byte.to_N b0 < 0x80 -> utf8_encode_cp (Byte.to_N b0) = Some [b0].
Proof.
  intros H. unfold utf8_encode_cp. tests. now rewrite byte_of_to_N.
Qed.

Lemma encode_2 (b0 b1 : byte) :
  0xC2 <= Byte.to_N b0 <= 0xDF ->
  0x80 <= Byte.to_N b1 <= 0xBF ->
  utf8_encode_cp (Byte.to_N b0 mod 32 * 64 + Byte.to_N b1 mod 64) = Some [b0; b1].
Proof.
  intros H0 H1. unfold utf8_encode_cp. tests.
  rewrite (cont_value _ (Byte.to_N b1)) by euclid.
  rewrite shiftr_div. change 0xC0 with (3 * 2 ^ 6).
  rewrite lor_tag by (change (2 ^ 6) with 64; euclid).
  change (2 ^ 6) with 64.
  replace (3 * 64 + _) with (Byte.to_N b0) by euclid.
  now rewrite !byte_of_to_N.
Qed.

Lemma encode_3 (b0 b1 b2 : byte) :
  let c := Byte.to_N b0 mod 16 * 4096 + Byte.to_N b1 mod 64 * 64 + Byte.to_N b2 mod 64 in
  0xE0 <= Byte.to_N b0 <= 0xEF ->
  0x80 <= Byte.to_N b1 <= 0xBF ->
  0x80 <= Byte.to_N b2 <= 0xBF ->
  0x800 <= c -> (c < 0xD800 \/ 0xDFFF < c) ->
  utf8_encode_cp c = Some [b0; b1; b2].
Proof.
  intros c H0 H1 H2 Hlow Hsur.
  assert (Hc : c < 0x10000) by (subst c; euclid).
  assert (Hc0 : c / 4096 = Byte.to_N b0 mod 16) by (subst c; euclid).
  assert (Hc1 : (c / 64) mod 64 = Byte.to_N b1 mod 64) by (subst c; euclid).
  assert (Hc2 : c mod 64 = Byte.to_N b2 mod 64) by (subst c; euclid).
  clearbody c.
  unfold utf8_encode_cp, is_surrogate. tests;
    rewrite (cont_value c (Byte.to_N b2)) by assumption;
    rewrite (cont_value _ (Byte.to_N b1)) by (rewrite ?shiftr_div; assumption);
    rewrite shiftr_div; change 0xE0 with (14 * 2 ^ 4);
    (rewrite lor_tag by (change (2 ^ 4) with 16; change (2 ^ 12) with 4096; euclid));
    change (2 ^ 4) with 16; change (2 ^ 12) with 4096;
    replace (14 * 16 + _) with (Byte.to_N b0) by euclid;
    now rewrite !byte_of_to_N.
Qed.

Lemma encode_4 (b0 b1 b2 b3 : byte) :
  let c := Byte.to_N b0 mod 8 * 262144 + Byte.to_N b1 mod 64 * 4096
           + Byte.to_N b2 mod 64 * 64 + Byte.to_N b3 mod 64 in
  0xF0 <= Byte.to_N b0 <= 0xF4 ->
  0x80 <= Byte.to_N b1 <= 0xBF ->
  0x80 <= Byte.to_N b2 <= 0xBF ->
  0x80 <= Byte.to_N b3 <= 0xBF ->
  0x10000 <= c < 0x110000 ->
  utf8_encode_cp c = Some [b0; b1; b2; b3].
Proof.
  intros c H0 H1 H2 H3 Hc.
  assert (Hc0 : c / 262144 = Byte.to_N b0 mod 8) by (subst c; euclid).
  assert (Hc1 : (c / 4096) mod 64 = Byte.to_N b1 mod 64) by (subst c; euclid).
  assert (Hc2 : (c / 64) mod 64 = Byte.to_N b2 mod 64) by (subst c; euclid).
  assert (Hc3 : c mod 64 = Byte.to_N b3 mod 64) by (subst c; euclid).
  clearbody c.
  unfold utf8_encode_cp, is_surrogate. tests.
  rewrite (cont_value c (Byte.to_N b3)) by assumption.
  rewrite (cont_value (N.shiftr c 6) (Byte.to_N b2)) by (rewrite ?shiftr_div; assumption).
  rewrite (cont_value (N.shiftr c 12) (Byte.to_N b1)) by (rewrite ?shiftr_div; assumption).
  rewrite shiftr_div. change 0xF0 with (30 * 2 ^ 3).
  rewrite lor_tag by (change (2 ^ 3) with 8; change (2 ^ 18) with 262144; euclid).
  change (2 ^ 3) with 8. change (2 ^ 18) with 262144.
  replace (30 * 8 + _) with (Byte.to_N b0) by euclid.
  now rewrite !byte_of_to_N.
Qed.

Lemma utf8_encode_decode_bounded (n : nat) (bs : bytes) (s : pystr) :
  (length bs <= n)%nat -> utf8_decode bs = Some s -> utf8_encode s = Some bs.
Proof.
  revert bs s. induction n as [|n IH]; intros bs s Hlen.
  - destruct bs; [|cbn in Hlen; lia]. intros H. injection H as <-. reflexivity.
  - destruct bs as [|b0 r0]; [intros H; injection H as <-; reflexivity|].
    cbn [length] in Hlen. cbn [utf8_decode]. unfold is_cont, is_surrogate.
    destruct (N.ltb_spec (Byte.to_N b0) 0x80) as [H1|H1].
    { destruct (utf8_decode r0) as [s'|] eqn:E; [|discriminate].
      intros H. injection H as <-. cbn [utf8_encode].
      rewrite (encode_1 b0 H1), (IH r0 s') by (assumption || lia). reflexivity. }
    destruct (N.leb_spec 0xC2 (Byte.to_N b0)) as [H2|H2];
      [destruct (N.leb_spec (Byte.to_N b0) 0xDF) as [H3|H3]|]; cbn [andb].
    { destruct r0 as [|b1 r1]; [discriminate|]. cbn [length] in Hlen.
      destruct (N.leb_spec 0x80 (Byte.to_N b1)) as [H4|H4];
        [destruct (N.leb_spec (Byte.to_N b1) 0xBF) as [H5|H5]|]; cbn [andb];
        try discriminate.
      destruct (utf8_decode r1) as [s'|] eqn:E; [|discriminate].
      rewrite low6_mod, land_31.
      rewrite (lor_shiftl_small _ _ 6) by (apply N.mod_lt; discriminate).
      change (2 ^ 6) with 64.
      intros H. injection H as <-. cbn [utf8_encode].
      rewrite (encode_2 b0 b1), (IH r1 s') by (assumption || lia). reflexivity. }
    { destruct (N.leb_spec 0xE0 (Byte.to_N b0)) as [H4|H4];
        [destruct (N.leb_spec (Byte.to_N b0) 0xEF) as [H5|H5]|]; cbn [andb];
        try lia.
      - destruct r0 as [|b1 [|b2 r2]]; try discriminate. cbn [length] in Hlen.
        rewrite !low6_mod, land_15.
        rewrite (lor_shiftl_small _ _ 6) by (apply N.mod_lt; discriminate).
        rewrite (lor_shiftl_small _ _ 12) by euclid.
        change (2 ^ 12) with 4096. change (2 ^ 6) with 64. rewrite N.add_assoc.
        set (c := Byte.to_N b0 mod 16 * 4096 + Byte.to_N b1 mod 64 * 64
                  + Byte.to_N b2 mod 64).
        destruct (N.leb_spec 0x80 (Byte.to_N b1)); [|discriminate].
        destruct (N.leb_spec (Byte.to_N b1) 0xBF); [|discriminate].
        destruct (N.leb_spec 0x80 (Byte.to_N b2)); [|discriminate].
        destruct (N.leb_spec (Byte.to_N b2) 0xBF); [|discriminate].
        destruct (N.leb_spec 0x800 c); [|discriminate].
        destruct (N.leb_spec 0xD800 c);
          [destruct (N.leb_spec c 0xDFFF); [discriminate|]|]; cbn [andb negb];
          (destruct (utf8_decode r2) as [s'|] eqn:E; [|discriminate]);
          intros H'; injection H' as <-; cbn [utf8_encode]; subst c;
          rewrite (encode_3 b0 b1 b2), (IH r2 s') by (assumption || lia || (split; lia));
          reflexivity.
      - destruct (N.leb_spec 0xF0 (Byte.to_N b0)) as [H6|H6];
          [destruct (N.leb_spec (Byte.to_N b0) 0xF4) as [H7|H7]|]; cbn [andb];
          try discriminate.
        destruct r0 as [|b1 [|b2 [|b3 r3]]]; try discriminate. cbn [length] in Hlen.
        rewrite !low6_mod, land_7.
        rewrite (lor_shiftl_small _ _ 6) by (apply N.mod_lt; discriminate).
        rewrite (lor_shiftl_small _ _ 12) by euclid.
        rewrite (lor_shiftl_small _ _ 18) by euclid.
        change (2 ^ 18) with 262144.
        change (2 ^ 12) with 4096. change (2 ^ 6) with 64. rewrite !N.add_assoc.
        set (c := Byte.to_N b0 mod 8 * 262144 + Byte.to_N b1 mod 64 * 4096
                  + Byte.to_N b2 mod 64 * 64 + Byte.to_N b3 mod 64).
        destruct (N.leb_spec 0x80 (Byte.to_N b1)); [|discriminate].
        destruct (N.leb_spec (Byte.to_N b1) 0xBF); [|discriminate].
        destruct (N.leb_spec 0x80 (Byte.to_N b2)); [|discriminate].
        destruct (N.leb_spec (Byte.to_N b2) 0xBF); [|discriminate].
        destruct (N.leb_spec 0x80 (Byte.to_N b3)); [|discriminate].
        destruct (N.leb_spec (Byte.to_N b3) 0xBF); [|discriminate].
        destruct (N.leb_spec 0x10000 c); [|discriminate].
        destruct (N.ltb_spec c 0x110000); [|discriminate]. cbn [andb].
        destruct (utf8_decode r3) as [s'|] eqn:E; [|discriminate].
        intros H'. injection H' as <-. cbn [utf8_encode]. subst c.
        rewrite (encode_4 b0 b1 b2 b3), (IH r3 s') by (assumption || lia || (split; lia)).
        reflexivity. }
    { destruct (N.leb_spec 0xE0 (Byte.to_N b0)) as [H4|H4]; [lia|].
      destruct (N.leb_spec 0xF0 (Byte.to_N b0)) as [H6|H6]; [lia|].
      cbn [andb]. discriminate. }
Qed.

Lemma utf8_encode_decoded (bs : bytes) (s : pystr) :
  utf8_decode bs = Some s -> utf8_encode s = Some bs.
Proof. apply (utf8_encode_decode_bounded (length bs)). lia. Qed.

(** X21: Decoding accepts only what encoding produces: when
    [b.decode('utf-8')] returns [s], [s.encode('utf-8')] returns [b], so no
    other byte string decodes to [s]. *)
Theorem utf8_decode_canonical (bs : bytes) (s : pystr) :
  utf8_decode bs = Some s ->
  utf8_encode s = Some bs
  /\ forall bs', utf8_decode bs' = Some s -> bs' = bs.
Proof.
  intros H. split; [now apply utf8_encode_decoded|].
  intros bs' H'. apply utf8_encode_decoded in H, H'. congruence.
Qed.

Lemma utf8_decode_canonical_witness :
  utf8_encode [0x4E2D; 0x41; 0x1F600] = Some [xe4; xb8; xad; x41; xf0; x9f; x98; x80].
Proof.
  exact (proj1 (utf8_decode_canonical [xe4; xb8; xad; x41; xf0; x9f; x98; x80]
                  [0x4E2D; 0x41; 0x1F600] eq_refl)).
Defined.

(** X22: The text pairs the response callback receives determine the
    headers the callee sent: two header lists that decode to the same pairs
    are the same list. *)
Theorem response_headers_determined (hdrs hdrs' : list (bytes * bytes))
    (texts : list (pystr * pystr)) :
  decode_loop hdrs [] = Ok texts ->
  decode_loop hdrs' [] = Ok texts ->
  hdrs = hdrs'.
Proof.
  intros H H'. apply decode_loop_spec in H, H'.
  revert hdrs' H'. induction H as [|[k v] [tk tv] hdrs texts [Hk Hv] _ IH];
    intros hdrs' H'; inversion H' as [|[k' v'] ? hdrs'' ? [Hk' Hv'] Hrest]; subst.
  - reflexivity.
  - cbn [fst snd] in *.
    apply utf8_encode_decoded in Hk, Hv, Hk', Hv'.
    f_equal; [f_equal; congruence | now apply IH].
Qed.

Lemma response_headers_determined_witness :
  [(blit "x", blit "y")] = [(blit "x", blit "y")].
Proof.
  exact (response_headers_determined [(blit "x", blit "y")] [(blit "x", blit "y")]
           [(lit "x", lit "y")] eq_refl eq_refl).
Defined.
